(** * BluRay converter: the task lifecycle on the NAS side

    A shallow embedding of the task store ([watcher/db_manager.py]), the
    dispatcher ([watcher/main.py]), the status receiver ([api/webhook.py]),
    the administrative routes ([api/routes.py]) and the file relocation
    ([api/file_manager.py]), followed by the properties of the lifecycle;
    then the scanner ([watcher/scanner.py]) and, on the worker's side, the
    status reports ([worker/nas_client.py]) and the choice of the main
    playlist ([worker/bdmv_analyzer.py]), with their properties.

    Conventions.
    - The [tasks] table is a finite map from the primary key to the row.
    - Timestamps are integers; every operation that reads [datetime.now()]
      takes the reading as its argument [now].
    - The coroutines of the API are run to completion: [await f(..)] is the
      call [f(..)].
    - Float fields of the callback payload (percent, seconds, megabytes) are
      integers here; only their presence and truthiness matter.
    - The services call methods of the store that [db_manager.py] does not
      define ([get_task_details], [increment_task_attempts], ...); each is
      introduced with the sentence of the specification it follows.
    - The store and the notifier raise nothing; a move of a file that exists
      succeeds. *)

From stdpp Require Import gmap strings list sorting pretty.

Local Open Scope string_scope.
Local Open Scope Z_scope.

(** ** Data model *)

(** [class TaskStatus(str, Enum)] of [db_manager.py]. *)
Inductive TaskStatus : Type :=
  | PENDING | SENT | PROCESSING | COMPLETED | FAILED | RETRYING.

#[global] Instance TaskStatus_eq_dec : EqDecision TaskStatus.
Proof. solve_decision. Defined.

(** [TaskStatus.X.value] *)
Definition value (s : TaskStatus) : string :=
  match s with
  | PENDING => "pending"
  | SENT => "sent"
  | PROCESSING => "processing"
  | COMPLETED => "completed"
  | FAILED => "failed"
  | RETRYING => "retrying"
  end.

(** A row of the [tasks] table ([_create_tasks_table]), without its primary
    key: the table maps the key to the row, and a query returns pairs of the
    key and the row.  The column [progress_percent] is not in the schema of
    [db_manager.py]; it is the field that [update_task_progress] writes. *)
Record Task : Type := mkTask {
  movie_name : string;
  source_path : string;
  status : TaskStatus;
  priority : Z;
  attempts : Z;
  created_at : Z;
  updated_at : Z;
  processing_started_at : option Z;
  processing_completed_at : option Z;
  error_message : option string;
  file_size_bytes : option Z;
  processing_time_seconds : option Z;
  mac_worker_id : option string;
  progress_percent : option Z
}.

Definition set_status (s : TaskStatus) (t : Task) : Task :=
  mkTask (movie_name t) (source_path t) s (priority t)
    (attempts t) (created_at t) (updated_at t) (processing_started_at t)
    (processing_completed_at t) (error_message t) (file_size_bytes t)
    (processing_time_seconds t) (mac_worker_id t) (progress_percent t).

Definition set_attempts (a : Z) (t : Task) : Task :=
  mkTask (movie_name t) (source_path t) (status t) (priority t)
    a (created_at t) (updated_at t) (processing_started_at t)
    (processing_completed_at t) (error_message t) (file_size_bytes t)
    (processing_time_seconds t) (mac_worker_id t) (progress_percent t).

Definition set_updated_at (now : Z) (t : Task) : Task :=
  mkTask (movie_name t) (source_path t) (status t) (priority t)
    (attempts t) (created_at t) now (processing_started_at t)
    (processing_completed_at t) (error_message t) (file_size_bytes t)
    (processing_time_seconds t) (mac_worker_id t) (progress_percent t).

Definition set_processing_started_at (v : option Z) (t : Task) : Task :=
  mkTask (movie_name t) (source_path t) (status t) (priority t)
    (attempts t) (created_at t) (updated_at t) v
    (processing_completed_at t) (error_message t) (file_size_bytes t)
    (processing_time_seconds t) (mac_worker_id t) (progress_percent t).

Definition set_processing_completed_at (v : option Z) (t : Task) : Task :=
  mkTask (movie_name t) (source_path t) (status t) (priority t)
    (attempts t) (created_at t) (updated_at t) (processing_started_at t)
    v (error_message t) (file_size_bytes t)
    (processing_time_seconds t) (mac_worker_id t) (progress_percent t).

Definition set_error_message (v : option string) (t : Task) : Task :=
  mkTask (movie_name t) (source_path t) (status t) (priority t)
    (attempts t) (created_at t) (updated_at t) (processing_started_at t)
    (processing_completed_at t) v (file_size_bytes t)
    (processing_time_seconds t) (mac_worker_id t) (progress_percent t).

Definition set_file_size_bytes (v : option Z) (t : Task) : Task :=
  mkTask (movie_name t) (source_path t) (status t) (priority t)
    (attempts t) (created_at t) (updated_at t) (processing_started_at t)
    (processing_completed_at t) (error_message t) v
    (processing_time_seconds t) (mac_worker_id t) (progress_percent t).

Definition set_processing_time_seconds (v : option Z) (t : Task) : Task :=
  mkTask (movie_name t) (source_path t) (status t) (priority t)
    (attempts t) (created_at t) (updated_at t) (processing_started_at t)
    (processing_completed_at t) (error_message t) (file_size_bytes t)
    v (mac_worker_id t) (progress_percent t).

Definition set_mac_worker_id (v : option string) (t : Task) : Task :=
  mkTask (movie_name t) (source_path t) (status t) (priority t)
    (attempts t) (created_at t) (updated_at t) (processing_started_at t)
    (processing_completed_at t) (error_message t) (file_size_bytes t)
    (processing_time_seconds t) v (progress_percent t).

Definition set_progress_percent (v : option Z) (t : Task) : Task :=
  mkTask (movie_name t) (source_path t) (status t) (priority t)
    (attempts t) (created_at t) (updated_at t) (processing_started_at t)
    (processing_completed_at t) (error_message t) (file_size_bytes t)
    (processing_time_seconds t) (mac_worker_id t) v.

(** A row of the [errors] table and of the processing history. *)
Record ErrorRow : Type := mkErrorRow {
  err_task_id : option Z;
  err_type : string;
  err_message : string
}.

Record HistoryRow : Type := mkHistoryRow {
  hist_task_id : Z;
  hist_movie_name : string;
  hist_success : bool
}.

(** What the notifier is asked to send (the text itself is formatting). *)
Inductive Notification : Type :=
  | NotifyProgress (name : string) (percent : Z)
  | NotifyCompleted (name : string)
  | NotifyPostProcessingFailed (name : string) (err : string)
  | NotifyFailed (name : string) (err : string) (will_retry : bool)
  | NotifyWorkerOffline (worker_id : string).

(** A file of the processed folder: the optional movie subfolder, the file
    name, and the timestamp suffix given when the name was taken. *)
Definition ProcessedFile : Type := (option string * string * option Z)%type.

(** The state the NAS services share: the database, the three folders of
    the share, and the calls made to the collaborators. *)
Record World : Type := mkWorld {
  tasks : gmap Z Task;
  next_id : Z;
  errors : list ErrorRow;
  history : list HistoryRow;
  temp_files : gset string;
  processed_files : gset ProcessedFile;
  raw_folders : gset string;
  relocations : list (string * string);
  notifications : list Notification
}.

Definition set_tasks (f : gmap Z Task → gmap Z Task) (w : World) : World :=
  mkWorld (f (tasks w)) (next_id w) (errors w) (history w) (temp_files w)
    (processed_files w) (raw_folders w) (relocations w) (notifications w).

Definition empty_world : World :=
  mkWorld ∅ 1 [] [] ∅ ∅ ∅ [] [].

(** ** Effects: shared state and exceptions *)

Inductive Exn : Type :=
  | ValueError (msg : string)
  | Exception (msg : string)
  | HTTPException (status_code : Z) (detail : string).

(** [str(e)] *)
Definition str (e : Exn) : string :=
  match e with
  | ValueError msg | Exception msg => msg
  | HTTPException _ detail => detail
  end.

Inductive Result (A : Type) : Type :=
  | Ok (a : A)
  | Raised (e : Exn).
Arguments Ok {A} a.
Arguments Raised {A} e.

Definition M (A : Type) : Type := World → Result A * World.

#[global] Instance M_ret : MRet M := λ A a w, (Ok a, w).
#[global] Instance M_bind : MBind M := λ A B f c w,
  match c w with
  | (Ok a, w') => f a w'
  | (Raised e, w') => (Raised e, w')
  end.

Definition raise {A : Type} (e : Exn) : M A := λ w, (Raised e, w).

(** [try: c  except Exception as e: h e] *)
Definition try_except {A : Type} (c : M A) (h : Exn → M A) : M A := λ w,
  match c w with
  | (Ok a, w') => (Ok a, w')
  | (Raised e, w') => h e w'
  end.

Definition get_world : M World := λ w, (Ok w, w).
Definition modify (f : World → World) : M unit := λ w, (Ok tt, f w).

(** The world an action leaves and the value it returns. *)
Definition exec {A : Type} (c : M A) (w : World) : World := (c w).2.
Definition eval {A : Type} (c : M A) (w : World) : Result A := (c w).1.

(** Python's [pass], a [for] loop over a list, and truthiness. *)
Definition pass : M unit := mret tt.

Fixpoint for_each {A : Type} (l : list A) (body : A → M unit) : M unit :=
  match l with
  | [] => pass
  | x :: l => body x;; for_each l body
  end.

Definition when (b : bool) (c : M unit) : M unit := if b then c else pass.

(** [None] and the empty string are false; [None] and 0 are false. *)
Definition truthy (s : option string) : bool :=
  match s with
  | Some s => negb (bool_decide (s = ""))
  | None => false
  end.

Definition truthy_num (x : option Z) : bool :=
  match x with
  | Some x => negb (bool_decide (x = 0))
  | None => false
  end.

(** [a or b] on strings *)
Definition or_else (a : option string) (b : string) : string :=
  match a with
  | Some s => if bool_decide (s = "") then b else s
  | None => b
  end.

Definition notify (n : Notification) : M unit :=
  modify (λ w, mkWorld (tasks w) (next_id w) (errors w) (history w)
                 (temp_files w) (processed_files w) (raw_folders w)
                 (relocations w) (notifications w ++ [n])).

(** ** Task store ([watcher/db_manager.py]) *)

Module DatabaseManager.

(** The [SET] clause that [update_task_status] builds, applied to the row. *)
Definition status_update_row (new_status : TaskStatus)
    (error_message : option string) (processing_time file_size : option Z)
    (mac_worker_id : option string) (now : Z) (t : Task) : Task :=
  let t := set_updated_at now (set_status new_status t) in
  let t := if truthy error_message then set_error_message error_message t else t in
  let t := if processing_time is Some _
           then set_processing_time_seconds processing_time t else t in
  let t := if file_size is Some _ then set_file_size_bytes file_size t else t in
  let t := if truthy mac_worker_id then set_mac_worker_id mac_worker_id t else t in
  let t := match new_status with
           | PROCESSING => set_processing_started_at (Some now) t
           | COMPLETED | FAILED => set_processing_completed_at (Some now) t
           | _ => t
           end in
  match new_status with
  | RETRYING => set_attempts (attempts t + 1) t
  | _ => t
  end.

(** [UPDATE tasks SET .. WHERE id = ?]; the result is [rowcount != 0]. *)
Definition update_row (task_id : Z) (f : Task → Task) : M bool := λ w,
  match tasks w !! task_id with
  | Some _ => (Ok true, set_tasks (alter f task_id) w)
  | None => (Ok false, w)
  end.

Definition update_task_status_full (task_id : Z) (new_status : TaskStatus)
    (error_message : option string) (processing_time file_size : option Z)
    (mac_worker_id : option string) (now : Z) : M bool :=
  update_row task_id
    (status_update_row new_status error_message processing_time file_size
       mac_worker_id now).

(** Every caller passes the two positional arguments only. *)
Definition update_task_status (task_id : Z) (new_status : TaskStatus)
    (now : Z) : M bool :=
  update_task_status_full task_id new_status None None None None now.

Definition get_task_by_id (task_id : Z) : M (option Task) := λ w,
  (Ok (tasks w !! task_id), w).

(** [ORDER BY priority DESC, created_at ASC]; rows that tie come in the order
    of the primary key. *)
Definition pending_order (a b : Z * Task) : Prop :=
  priority b.2 < priority a.2 ∨
  (priority a.2 = priority b.2 ∧
   (created_at a.2 < created_at b.2 ∨
    (created_at a.2 = created_at b.2 ∧ a.1 ≤ b.1))).

#[global] Instance pending_order_dec : RelDecision pending_order.
Proof. intros a b. unfold pending_order. apply _. Defined.

(** [ORDER BY priority DESC, created_at DESC] *)
Definition listing_order (a b : Z * Task) : Prop :=
  priority b.2 < priority a.2 ∨
  (priority a.2 = priority b.2 ∧
   (created_at b.2 < created_at a.2 ∨
    (created_at a.2 = created_at b.2 ∧ a.1 ≤ b.1))).

#[global] Instance listing_order_dec : RelDecision listing_order.
Proof. intros a b. unfold listing_order. apply _. Defined.

(** [if limit: query += LIMIT ..]: 0 adds no clause, and SQLite reads a
    negative limit as no limit. *)
Definition apply_limit {A : Type} (limit : Z) (l : list A) : list A :=
  if bool_decide (0 < limit) then take (Z.to_nat limit) l else l.

Definition get_pending_tasks (limit : Z) : M (list (Z * Task)) := λ w,
  (Ok (apply_limit limit
         (merge_sort pending_order
            (filter (λ r, status r.2 = PENDING) (map_to_list (tasks w))))), w).

Definition get_all_tasks : M (list (Z * Task)) := λ w,
  (Ok (merge_sort listing_order (map_to_list (tasks w))), w).

(** [INSERT INTO tasks]: [movie_name] is [UNIQUE], the key is
    [AUTOINCREMENT], the timestamps default to the current time and
    [attempts] to 0. *)
Definition name_taken (name : string) (w : World) : bool :=
  bool_decide (name ∈ (movie_name ∘ snd) <$> map_to_list (tasks w)).

Definition create_task (name path : string) (prio : Z) (now : Z) : M Z := λ w,
  if name_taken name w
  then (Raised (ValueError ("Task for movie '" +:+ name +:+ "' already exists")), w)
  else
    let i := next_id w in
    let row := mkTask name path PENDING prio 0 now now None None None
                 None None None None in
    (Ok i, mkWorld (<[i := row]> (tasks w)) (i + 1) (errors w) (history w)
             (temp_files w) (processed_files w) (raw_folders w)
             (relocations w) (notifications w)).

(** [DELETE FROM errors ..; DELETE FROM tasks ..]: nothing is committed when
    no task row matched. *)
Definition delete_task (task_id : Z) : M bool := λ w,
  match tasks w !! task_id with
  | None => (Ok false, w)
  | Some _ =>
      (Ok true,
       mkWorld (delete task_id (tasks w)) (next_id w)
         (filter (λ e, err_task_id e ≠ Some task_id) (errors w))
         (history w) (temp_files w) (processed_files w) (raw_folders w)
         (relocations w) (notifications w))
  end.

(** *** The methods the services call that [db_manager.py] does not define *)

(** Modelled from the spec: [get_task_details] is missing from
    [db_manager.py]; it is the store's [get(id) -> Task | NotFound], the same
    query as [get_task_by_id]. *)
Definition get_task_details (task_id : Z) : M (option Task) :=
  get_task_by_id task_id.

(** Modelled from the spec: [get_tasks_by_status] is missing; it is the
    store's [list] filtered by status. *)
Definition get_tasks_by_status (s : TaskStatus) : M (list (Z * Task)) := λ w,
  (Ok (filter (λ r, status r.2 = s)
         (merge_sort listing_order (map_to_list (tasks w)))), w).

(** Modelled from the spec: [get_failed_tasks_for_retry] is missing; by the
    retry policy a [failed] task is retried while [attempts < max_attempts],
    so the query lists the [failed] rows below the maximum. *)
Definition get_failed_tasks_for_retry (max_attempts : Z)
    : M (list (Z * Task)) := λ w,
  (Ok (filter (λ r, status r.2 = FAILED ∧ attempts r.2 < max_attempts)
         (merge_sort listing_order (map_to_list (tasks w)))), w).

(** Modelled from the spec: [increment_task_attempts] is missing; it is the
    store's explicit [increment_attempts(id)], separate from the increment
    that the [retrying] status implies. *)
Definition increment_task_attempts (task_id : Z) : M bool :=
  update_row task_id (λ t, set_attempts (attempts t + 1) t).

(** Modelled from the spec: [reset_task_attempts] is missing; it is the
    store's [reset_attempts(id)], which clears the counter. *)
Definition reset_task_attempts (task_id : Z) : M bool :=
  update_row task_id (set_attempts 0).

(** Modelled from the spec: [record_error] is missing; it records the
    failure reason as the task's [error_message]. *)
Definition record_error (task_id : Z) (msg : string) : M bool :=
  update_row task_id (set_error_message (Some msg)).

(** Modelled from the spec: [set_processing_started] is missing; it writes
    [processing_started_at]. *)
Definition set_processing_started (task_id : Z) (now : Z) : M bool :=
  update_row task_id (set_processing_started_at (Some now)).

(** Modelled from the spec: [set_processing_completed] is missing; it writes
    [processing_completed_at]. *)
Definition set_processing_completed (task_id : Z) (now : Z) : M bool :=
  update_row task_id (set_processing_completed_at (Some now)).

(** Modelled from the spec: [update_task_progress] is missing; it stores the
    last reported [progress_percent]. *)
Definition update_task_progress (task_id : Z) (percent : Z) : M bool :=
  update_row task_id (set_progress_percent (Some percent)).

(** Modelled from the spec: [record_processing_history] is missing; it
    appends to the history behind the reporting aggregates. *)
Definition record_processing_history (task_id : Z) (name : string)
    (success : bool) : M unit :=
  modify (λ w, mkWorld (tasks w) (next_id w) (errors w)
                 (history w ++ [mkHistoryRow task_id name success])
                 (temp_files w) (processed_files w) (raw_folders w)
                 (relocations w) (notifications w)).

End DatabaseManager.

(** The services hold the store in a variable [db_manager]. *)
Module db_manager := DatabaseManager.

(** ** File relocation ([api/file_manager.py]) *)

Record FileManager : Type := mkFileManager {
  mock_mode : bool;
  create_movie_subfolders : bool;
  delete_source_after_success : bool
}.

Module file_manager.

Definition set_files (temp : gset string) (processed : gset ProcessedFile)
    (raw : gset string) (w : World) : World :=
  mkWorld (tasks w) (next_id w) (errors w) (history w) temp processed raw
    (relocations w) (notifications w).

Definition log_relocation (temp_file source_folder : string) : M unit :=
  modify (λ w, mkWorld (tasks w) (next_id w) (errors w) (history w)
                 (temp_files w) (processed_files w) (raw_folders w)
                 (relocations w ++ [(temp_file, source_folder)])
                 (notifications w)).

(** [move_to_processed]: the file goes from the temp folder to the processed
    folder (into the movie's subfolder when so configured); a missing source
    is a failure, a taken destination name gets a timestamp suffix.  A move
    of an existing file is taken to succeed. *)
Definition move_to_processed (self : FileManager)
    (temp_file source_folder : string) (now : Z) : M bool :=
  log_relocation temp_file source_folder;;
  let dest_folder :=
    if create_movie_subfolders self then Some source_folder else None in
  if mock_mode self then mret true
  else
    w ← get_world;
    if bool_decide (temp_file ∉ temp_files w) then mret false
    else
      let dest : ProcessedFile :=
        if bool_decide ((dest_folder, temp_file, None) ∈ processed_files w)
        then (dest_folder, temp_file, Some now)
        else (dest_folder, temp_file, None) in
      modify (set_files (temp_files w ∖ {[temp_file]})
                ({[dest]} ∪ processed_files w) (raw_folders w));;
      mret true.

(** [delete_source_folder]: a folder already gone counts as deleted. *)
Definition delete_source_folder (self : FileManager) (folder_name : string)
    : M bool :=
  if mock_mode self then mret true
  else
    w ← get_world;
    modify (set_files (temp_files w) (processed_files w)
              (raw_folders w ∖ {[folder_name]}));;
    mret true.

End file_manager.

(** ** Status receiver ([api/webhook.py]) *)

Record StatusUpdateRequest : Type := mkStatusUpdateRequest {
  u_task_id : Z;
  u_status : string;
  u_source_folder : option string;
  u_temp_file : option string;
  u_processing_time : option Z;
  u_file_size_mb : option Z;
  u_error : option string;
  u_progress_percent : option Z
}.

Record WebhookResponse : Type := mkWebhookResponse {
  success : bool;
  message : string
}.

(** The module's globals, set by [setup_webhook]. *)
Record WebhookGlobals : Type := mkWebhookGlobals {
  db_available : bool;
  the_file_manager : option FileManager;
  telegram : bool
}.

Module webhook.

Section Handlers.
Context (g : WebhookGlobals).

Definition handle_processing_status (task : Task)
    (update : StatusUpdateRequest) (now : Z) : M unit :=
  db_manager.update_task_status (u_task_id update) PROCESSING now;;
  when (bool_decide (processing_started_at task = None))
    (db_manager.set_processing_started (u_task_id update) now;; pass);;
  match u_progress_percent update with
  | Some percent =>
      db_manager.update_task_progress (u_task_id update) percent;;
      when (telegram g && bool_decide (percent ∈ [25; 50; 75]))
        (notify (NotifyProgress (movie_name task) percent))
  | None => pass
  end.

Definition handle_completion_status (task : Task)
    (update : StatusUpdateRequest) (now : Z) : M unit :=
  try_except
    (when (negb (truthy (u_temp_file update)))
       (raise (ValueError "No temp_file provided in completion update"));;
     match the_file_manager g with
     | Some fm =>
         let folder := or_else (u_source_folder update) (movie_name task) in
         moved ← file_manager.move_to_processed fm
                   (default "" (u_temp_file update)) folder now;
         if moved : bool
         then when (delete_source_after_success fm)
                (file_manager.delete_source_folder fm folder;; pass)
         else raise (Exception "Failed to move processed file")
     | None => pass
     end;;
     db_manager.update_task_status (u_task_id update) COMPLETED now;;
     db_manager.set_processing_completed (u_task_id update) now;;
     when (truthy_num (u_processing_time update)
           && truthy_num (u_file_size_mb update))
       (db_manager.record_processing_history (u_task_id update)
          (movie_name task) true);;
     when (telegram g) (notify (NotifyCompleted (movie_name task))))
    (λ e,
       db_manager.update_task_status (u_task_id update) FAILED now;;
       db_manager.record_error (u_task_id update)
         ("Post-processing error: " +:+ str e);;
       when (telegram g)
         (notify (NotifyPostProcessingFailed (movie_name task) (str e)));;
       raise e).

Definition handle_failed_status (task : Task)
    (update : StatusUpdateRequest) (now : Z) : M unit :=
  db_manager.update_task_status (u_task_id update) FAILED now;;
  let error_message := or_else (u_error update) "Unknown error" in
  db_manager.record_error (u_task_id update) error_message;;
  db_manager.increment_task_attempts (u_task_id update);;
  when (truthy_num (u_processing_time update))
    (db_manager.record_processing_history (u_task_id update)
       (movie_name task) false);;
  when (bool_decide (attempts task < 2))
    (db_manager.update_task_status (u_task_id update) RETRYING now;;
     db_manager.update_task_status (u_task_id update) PENDING now;;
     pass);;
  when (telegram g)
    (notify (NotifyFailed (movie_name task) error_message
               (bool_decide (attempts task < 2)))).

(** [background_tasks.add_task]: the task runs once the response is made;
    what it raises does not reach the sender. *)
Definition add_task (c : M unit) : M unit := λ w, (Ok tt, exec c w).

(** [except HTTPException: raise / except Exception as e: raise 500] *)
Definition as_http_error {A : Type} (c : M A) : M A :=
  try_except c (λ e,
    match e with
    | HTTPException _ _ => raise e
    | _ => raise (HTTPException 500 (str e))
    end).

Definition receive_status_update (update : StatusUpdateRequest) (now : Z)
    : M WebhookResponse :=
  as_http_error
    (when (negb (db_available g))
       (raise (HTTPException 503 "Database not available"));;
     found ← db_manager.get_task_details (u_task_id update);
     match found with
     | None =>
         raise (HTTPException 404
                  ("Task " +:+ pretty (u_task_id update) +:+ " not found"))
     | Some task =>
         (if bool_decide (u_status update = value PROCESSING)
          then handle_processing_status task update now
          else if bool_decide (u_status update = value COMPLETED)
          then add_task (handle_completion_status task update now)
          else if bool_decide (u_status update = value FAILED)
          then handle_failed_status task update now
          else raise (HTTPException 400 ("Unknown status: " +:+ u_status update)));;
         mret (mkWebhookResponse true
                 ("Status update processed for task "
                  +:+ pretty (u_task_id update)))
     end).

(** [POST /worker/shutdown]: the tasks in [processing] go back to
    [pending]. *)
Definition worker_shutdown_notification (worker_id : string) (now : Z)
    : M WebhookResponse :=
  as_http_error
    (when (db_available g)
       (processing_tasks ← db_manager.get_tasks_by_status PROCESSING;
        for_each processing_tasks (λ task,
          db_manager.update_task_status task.1 PENDING now;; pass));;
     when (telegram g) (notify (NotifyWorkerOffline worker_id));;
     mret (mkWebhookResponse true
             ("Worker " +:+ worker_id +:+ " shutdown acknowledged"))).

End Handlers.

End webhook.

(** ** Administrative routes ([api/routes.py]) *)

Record TaskActionResponse : Type := mkTaskActionResponse {
  action_success : bool;
  action_message : string;
  action_task_id : option Z
}.

Module routes.

Section Routes.
(** The module's global [db_manager] is set. *)
Context (db_available : bool).

Definition restart_task (task_id : Z) (now : Z) : M TaskActionResponse :=
  webhook.as_http_error
    (when (negb db_available)
       (raise (HTTPException 503 "Database not available"));;
     found ← db_manager.get_task_details task_id;
     match found with
     | None =>
         raise (HTTPException 404 ("Task " +:+ pretty task_id +:+ " not found"))
     | Some task =>
         if bool_decide (value (status task) ∉ [value COMPLETED; value FAILED])
         then raise (HTTPException 400
                       ("Cannot restart task in status: " +:+ value (status task)))
         else
           db_manager.update_task_status task_id PENDING now;;
           db_manager.reset_task_attempts task_id;;
           mret (mkTaskActionResponse true
                   ("Task " +:+ pretty task_id +:+ " restarted successfully")
                   (Some task_id))
     end).

Definition delete_task (task_id : Z) : M TaskActionResponse :=
  webhook.as_http_error
    (when (negb db_available)
       (raise (HTTPException 503 "Database not available"));;
     found ← db_manager.get_task_details task_id;
     match found with
     | None =>
         raise (HTTPException 404 ("Task " +:+ pretty task_id +:+ " not found"))
     | Some task =>
         if bool_decide (value (status task) = value PROCESSING)
         then raise (HTTPException 400
                       "Cannot delete task that is currently processing")
         else
           db_manager.delete_task task_id;;
           mret (mkTaskActionResponse true
                   ("Task " +:+ pretty task_id +:+ " deleted successfully")
                   (Some task_id))
     end).

End Routes.

End routes.

(** ** Worker ([mac-services/worker/main.py]) *)


(** ** Dispatcher ([watcher/mac_client.py], [watcher/main.py]) *)

Record ProcessingTask : Type := mkProcessingTask {
  pt_task_id : Z;
  pt_movie_name : string;
  pt_source_path : string;
  pt_priority : Z
}.

(** What one delivery attempt meets. *)
Inductive Reply : Type :=
  | Unavailable            (* the health check failed *)
  | Answered (code : Z)    (* the worker answered the POST *)
  | ConnectTimeout
  | ConnectError.

Record MacClient : Type := mkMacClient {
  mac_mock_mode : bool;
  retry_attempts : nat;
  (** the worker and the network, by task and attempt number *)
  reply : ProcessingTask → nat → Reply
}.

Module mac_client.

(** The body of the retry loop: [Some b] returns [b], [None] goes on to the
    next attempt (the exception is logged). *)
Definition attempt_result (r : Reply) : option bool :=
  match r with
  | Answered 200 => Some true
  | Answered 429 => Some false
  | _ => None
  end.

Fixpoint send_attempts (self : MacClient) (task : ProcessingTask)
    (attempts : list nat) : bool :=
  match attempts with
  | [] => false
  | attempt :: rest =>
      if mac_mock_mode self then true
      else match attempt_result (reply self task attempt) with
           | Some b => b
           | None => send_attempts self task rest
           end
  end.

(** [for attempt in range(1, self.retry_attempts + 1)] *)
Definition send_task (self : MacClient) (task : ProcessingTask) : bool :=
  send_attempts self task (seq 1 (retry_attempts self)).

End mac_client.

Module WatcherService.

Section Service.
Context (max_concurrent_tasks : Z) (the_mac_client : MacClient).

(** The loop body up to the request: the row is marked [sent] before the
    task is sent. *)
Definition mark_sent (task_data : Z * Task) (now : Z) : M ProcessingTask :=
  let task := mkProcessingTask task_data.1 (movie_name task_data.2)
                (source_path task_data.2) (priority task_data.2) in
  db_manager.update_task_status (pt_task_id task) SENT now;;
  mret task.

(** The loop body after the request. *)
Definition after_send (task : ProcessingTask) (sent : bool) (now : Z)
    : M bool :=
  if sent then mret true
  else
    db_manager.increment_task_attempts (pt_task_id task);;
    db_manager.update_task_status (pt_task_id task) PENDING now;;
    mret false.

(** One turn of the loop.  [send_task] catches what a delivery raises and
    returns [False]; the [except] branch of the loop, which reverts the task
    to [pending] without counting an attempt, is for errors of the store,
    which this model does not have. *)
Definition dispatch_one (task_data : Z * Task) (now : Z) : M bool :=
  task ← mark_sent task_data now;
  after_send task (mac_client.send_task the_mac_client task) now.

Fixpoint dispatch_all (pending_tasks : list (Z * Task)) (now : Z)
    (tasks_sent : Z) : M Z :=
  match pending_tasks with
  | [] => mret tasks_sent
  | task_data :: rest =>
      sent ← dispatch_one task_data now;
      dispatch_all rest now (if sent : bool then tasks_sent + 1 else tasks_sent)
  end.

Definition process_pending_tasks (now : Z) : M Z :=
  pending_tasks ← db_manager.get_pending_tasks max_concurrent_tasks;
  dispatch_all pending_tasks now 0.

(** The retry of failed tasks; [max_attempts] is the maximum that
    [get_failed_tasks_for_retry] compares with. *)
Definition retry_one (task_data : Z * Task) (now : Z) : M unit :=
  db_manager.update_task_status task_data.1 RETRYING now;;
  db_manager.increment_task_attempts task_data.1;;
  db_manager.update_task_status task_data.1 PENDING now;;
  pass.

Fixpoint retry_all (failed_tasks : list (Z * Task)) (now : Z)
    (retries_attempted : Z) : M Z :=
  match failed_tasks with
  | [] => mret retries_attempted
  | task_data :: rest =>
      retry_one task_data now;;
      retry_all rest now (retries_attempted + 1)
  end.

Definition retry_failed_tasks (max_attempts : Z) (now : Z) : M Z :=
  failed_tasks ← db_manager.get_failed_tasks_for_retry max_attempts;
  retry_all failed_tasks now 0.

End Service.

End WatcherService.

(** ** Scanner ([watcher/scanner.py]) *)

Module scanner.

(** The loop over [get_all_tasks]: [Some b] returns [b]; [None] falls out
    of the loop. *)
Fixpoint task_decides (movie : string) (max_attempts : Z)
    (all_tasks : list (Z * Task)) : option bool :=
  match all_tasks with
  | [] => None
  | task :: rest =>
      if bool_decide (movie_name task.2 = movie)
      then
        if bool_decide (status task.2 ∈ [COMPLETED; PROCESSING; SENT])
        then Some true
        else if bool_decide (status task.2 = FAILED)
        then Some (bool_decide (max_attempts ≤ attempts task.2))
        else task_decides movie max_attempts rest
      else task_decides movie max_attempts rest
  end.

(** [max_attempts] is [MAX_RETRY_ATTEMPTS], 3 unless set. *)
Definition is_movie_already_processed (max_attempts : Z) (movie : string)
    : M bool :=
  all_tasks ← db_manager.get_all_tasks;
  match task_decides movie max_attempts all_tasks with
  | Some b => mret b
  | None =>
      w ← get_world;
      mret (bool_decide ((None, movie +:+ ".mkv", None) ∈ processed_files w)
            || bool_decide ((None, movie +:+ ".mp4", None) ∈ processed_files w))
  end.

End scanner.

(** ** Statements about the rows

    [keeps R c]: running [c] deletes no row and takes every row to one that
    is [R]-related to it, whether [c] returns or raises. *)
Definition keeps (R : Task → Task → Prop) {A : Type} (c : M A) : Prop :=
  ∀ w i t, tasks w !! i = Some t →
    ∃ t', tasks (exec c w) !! i = Some t' ∧ R t t'.

(** The two relations on [attempts] that the lifecycle is about. *)
Definition same_attempts (t t' : Task) : Prop := attempts t' = attempts t.
Definition attempts_le (t t' : Task) : Prop := attempts t ≤ attempts t'.

#[global] Instance same_attempts_refl : Reflexive same_attempts.
Proof. intros t. reflexivity. Qed.
#[global] Instance same_attempts_trans : Transitive same_attempts.
Proof. unfold same_attempts. intros t1 t2 t3 H12 H23. congruence. Qed.
#[global] Instance attempts_le_refl : Reflexive attempts_le.
Proof. intros t. unfold attempts_le. lia. Qed.
#[global] Instance attempts_le_trans : Transitive attempts_le.
Proof. unfold attempts_le. intros t1 t2 t3 H12 H23. lia. Qed.

(** The row a dispatch leaves: [sent] when the worker took the task,
    [pending] with one more attempt when it did not. *)
Definition row_after_dispatch (sent : bool) (now : Z) (t : Task) : Task :=
  let t1 := DatabaseManager.status_update_row SENT None None None None now t in
  if sent then t1
  else DatabaseManager.status_update_row PENDING None None None None now
         (set_attempts (attempts t1 + 1) t1).

Definition to_processing_task (task_data : Z * Task) : ProcessingTask :=
  mkProcessingTask task_data.1 (movie_name task_data.2)
    (source_path task_data.2) (priority task_data.2).

(** What the dispatcher selects: rows of the table that are [pending], each
    once, and no more than the limit when there is one. *)
Definition selected (limit : Z) (w : World) : list (Z * Task) :=
  DatabaseManager.apply_limit limit
    (merge_sort DatabaseManager.pending_order
       (filter (λ r, status r.2 = PENDING) (map_to_list (tasks w)))).

(** ** The lifecycle as transitions of the store *)

(** What moves a task through its lifecycle: a dispatcher cycle, the
    watcher's retry of failed tasks, a status callback from the worker, the
    worker's shutdown notification, and the administrative restart. *)
Inductive Transition : Type :=
  | Dispatch (max_concurrent_tasks : Z) (mc : MacClient)
  | RetryFailed (max_attempts : Z)
  | StatusCallback (g : WebhookGlobals) (update : StatusUpdateRequest)
  | WorkerShutdown (g : WebhookGlobals) (worker_id : string)
  | AdminRestart (task_id : Z).

Definition apply_transition (tr : Transition) (now : Z) (w : World) : World :=
  match tr with
  | Dispatch limit mc =>
      exec (WatcherService.process_pending_tasks limit mc now) w
  | RetryFailed max_attempts =>
      exec (WatcherService.retry_failed_tasks max_attempts now) w
  | StatusCallback g update =>
      exec (webhook.receive_status_update g update now) w
  | WorkerShutdown g worker_id =>
      exec (webhook.worker_shutdown_notification g worker_id now) w
  | AdminRestart task_id => exec (routes.restart_task true task_id now) w
  end.







(** ** The properties as the specification words them *)

(** Two submissions of one [completed] callback end as one does, and the
    relocation runs at most once. *)
Definition completed_is_idempotent (g : WebhookGlobals) (w : World)
    (update : StatusUpdateRequest) (now1 now2 : Z) : Prop :=
  let once := exec (webhook.receive_status_update g update now1) w in
  let twice := exec (webhook.receive_status_update g update now2) once in
  status <$> tasks twice !! u_task_id update
    = status <$> tasks once !! u_task_id update
  ∧ attempts <$> tasks twice !! u_task_id update
    = attempts <$> tasks once !! u_task_id update
  ∧ (length (relocations twice) ≤ length (relocations w) + 1)%nat.


(** A failed delivery returns the task to [pending] with one more attempt,
    unless the attempts are at the maximum: then the task is [failed]. *)
Definition dispatch_failure_is_bounded (max_attempts : Z) (limit : Z)
    (mc : MacClient) (now : Z) (w : World) (i : Z) : Prop :=
  ∀ t t', (i, t) ∈ selected limit w →
    mac_client.send_task mc (to_processing_task (i, t)) = false →
    tasks (exec (WatcherService.process_pending_tasks limit mc now) w) !! i
      = Some t' →
    if decide (max_attempts ≤ attempts t)
    then status t' = FAILED
    else status t' = PENDING ∧ attempts t' = attempts t + 1.

(** A progress report never changes the status, and is applied only to a
    task that is [processing]. *)
Definition progress_keeps_status (g : WebhookGlobals) (w : World)
    (update : StatusUpdateRequest) (now : Z) : Prop :=
  ∀ t t', tasks w !! u_task_id update = Some t →
    tasks (exec (webhook.receive_status_update g update now) w)
      !! u_task_id update = Some t' →
    status t' = status t
    ∧ (status t ≠ PROCESSING → progress_percent t' = progress_percent t).



(** ** A deployment and a few of its states *)

(** The API with its file manager (no mock mode, no subfolders, sources
    deleted after success) and no notifier. *)
Definition nas : WebhookGlobals :=
  mkWebhookGlobals true (Some (mkFileManager false false true)) false.

Definition callback (task_id : Z) (s : TaskStatus) : StatusUpdateRequest :=
  mkStatusUpdateRequest task_id (value s) None None None None None None.

Definition progress_report (task_id : Z) (percent : Z) : StatusUpdateRequest :=
  mkStatusUpdateRequest task_id (value PROCESSING) None None None None None
    (Some percent).

Definition completed_callback (task_id : Z) : StatusUpdateRequest :=
  mkStatusUpdateRequest task_id (value COMPLETED) (Some "Movie A")
    (Some "x.mkv") (Some 5400) (Some 8000) None None.

(** A worker that takes every task, and one that cannot be reached. *)
Definition willing_worker : MacClient :=
  mkMacClient false 3 (λ _ _, Answered 200).
Definition unreachable_worker : MacClient :=
  mkMacClient false 3 (λ _ _, ConnectError).

(** "Movie A" is created with priority 5. *)
Definition movie_a_pending : World :=
  exec (db_manager.create_task "Movie A" "/raw/Movie A" 5 100) empty_world.

(** The dispatch succeeds. *)
Definition movie_a_sent : World :=
  apply_transition (Dispatch 1 willing_worker) 110 movie_a_pending.

(** The worker reports [processing] and writes [x.mkv] to the temp folder. *)
Definition movie_a_processing : World :=
  file_manager.set_files {["x.mkv"]} ∅ {["Movie A"]}
    (apply_transition (StatusCallback nas (callback 1 PROCESSING)) 200
       movie_a_sent).

(** The worker reports [completed]. *)
Definition movie_a_completed : World :=
  apply_transition (StatusCallback nas (completed_callback 1)) 500
    movie_a_processing.

(** Instead, the worker reports [failed]; the task is dispatched again and
    the worker reports [failed] again. *)
Definition movie_a_failed_once : World :=
  apply_transition (StatusCallback nas (callback 1 FAILED)) 300
    movie_a_processing.
Definition movie_a_sent_again : World :=
  apply_transition (Dispatch 1 willing_worker) 310 movie_a_failed_once.
Definition movie_a_failed_twice : World :=
  apply_transition (StatusCallback nas (callback 1 FAILED)) 400
    movie_a_sent_again.

(** The worker cannot be reached for three cycles in a row. *)
Definition movie_a_undelivered (cycles : nat) : World :=
  Nat.iter cycles (apply_transition (Dispatch 1 unreachable_worker) 110)
    movie_a_pending.




(** ** Scanner, the scan itself ([watcher/scanner.py]) *)

(** An item of the raw folder as [scan_for_new_movies] looks at it: its
    name, whether it is a directory, whether [is_valid_bluray_structure]
    holds of it, and the size that [get_movie_info] adds up. *)
Record RawEntry : Type := mkRawEntry {
  entry_name : string;
  entry_is_dir : bool;
  entry_is_bluray : bool;
  entry_size_bytes : Z
}.

(** The keys of the [info] dictionary that the scanner reads back. *)
Record MovieInfo : Type := mkMovieInfo {
  info_name : string;
  info_path : string;
  info_size_bytes : Z
}.

(** The two counts of the summary that [full_scan] returns. *)
Record ScanResults : Type := mkScanResults {
  movies_found : Z;
  tasks_created : Z
}.

Module BluRayScanner.

Section Scanner.
Context (raw_path : string) (dry_run : bool) (max_attempts : Z).

(** [startswith('.')] *)
Definition is_hidden (item : string) : bool :=
  match item with
  | String c _ => bool_decide (String c "" = ".")
  | EmptyString => false
  end.

(** The loop of [scan_for_new_movies] over [os.listdir(self.raw_path)]. *)
Fixpoint scan_items (items : list RawEntry) : M (list MovieInfo) :=
  match items with
  | [] => mret []
  | item :: rest =>
      if negb (entry_is_dir item) then scan_items rest
      else if is_hidden (entry_name item) then scan_items rest
      else if negb (entry_is_bluray item) then scan_items rest
      else
        skip ← scanner.is_movie_already_processed max_attempts
                 (entry_name item);
        if skip : bool then scan_items rest
        else
          new_movies ← scan_items rest;
          mret (mkMovieInfo (entry_name item)
                  (raw_path +:+ "/" +:+ entry_name item)
                  (entry_size_bytes item) :: new_movies)
  end.

(** [raw_dir] is the listing of the raw folder, [None] when the folder does
    not exist. *)
Definition scan_for_new_movies (raw_dir : option (list RawEntry))
    : M (list MovieInfo) :=
  match raw_dir with
  | None => mret []
  | Some items => scan_items items
  end.

(** [size_gb = size_bytes / (1024 ** 3)], compared with 50 and with 25; the
    division by a power of two is exact. *)
Definition size_priority (size_bytes : Z) : Z :=
  if bool_decide (50 * 1024 ^ 3 < size_bytes) then 1
  else if bool_decide (25 * 1024 ^ 3 < size_bytes) then 5
  else 10.

(** One turn of the loop of [create_tasks_for_movies]: whether the counter
    goes up. *)
Definition create_one (movie : MovieInfo) (now : Z) : M bool :=
  try_except
    (if dry_run then mret true
     else
       db_manager.create_task (info_name movie) (info_path movie)
         (size_priority (info_size_bytes movie)) now;;
       mret true)
    (λ _, mret false).

Fixpoint create_all (movies : list MovieInfo) (now : Z) (tasks_created : Z)
    : M Z :=
  match movies with
  | [] => mret tasks_created
  | movie :: rest =>
      created ← create_one movie now;
      create_all rest now
        (if created : bool then tasks_created + 1 else tasks_created)
  end.

Definition create_tasks_for_movies (movies : list MovieInfo) (now : Z)
    : M Z :=
  create_all movies now 0.

(** [full_scan], without the statistics it copies into the summary. *)
Definition full_scan (raw_dir : option (list RawEntry)) (now : Z)
    : M ScanResults :=
  new_movies ← scan_for_new_movies raw_dir;
  tasks_created ← create_tasks_for_movies new_movies now;
  mret (mkScanResults (Z.of_nat (length new_movies)) tasks_created).

End Scanner.

End BluRayScanner.

(** ** The worker's reports ([mac-services/worker/nas_client.py]) *)

(** What one attempt to post a status update meets: the connection fails
    and the NAS never sees the request; the NAS handles the request and its
    answer arrives; the NAS handles the request and the answer is lost. *)
Inductive Delivery : Type :=
  | Refused
  | Delivered
  | AnswerLost.

Record NASClient : Type := mkNASClient {
  nas_mock_mode : bool;
  nas_retry_attempts : nat;
  (** the network, by update and attempt number *)
  delivery : StatusUpdateRequest → nat → Delivery
}.

Module nas_client.

Section Client.
(** The NAS that the worker reports to, and the client. *)
Context (g : WebhookGlobals) (self : NASClient).

(** The NAS end of [client.post(self.webhook_url, ..)]: the receiver runs
    and the status code of its response comes back. *)
Definition post (update : StatusUpdateRequest) (now : Z) : M Z := λ w,
  match webhook.receive_status_update g update now w with
  | (Ok _, w') => (Ok 200, w')
  | (Raised (HTTPException status_code _), w') => (Ok status_code, w')
  | (Raised _, w') => (Ok 500, w')
  end.

(** The retry loop; [clock] is the time at the NAS by attempt number. *)
Fixpoint send_attempts (update : StatusUpdateRequest) (clock : nat → Z)
    (attempts : list nat) : M bool :=
  match attempts with
  | [] => mret false
  | attempt :: rest =>
      if nas_mock_mode self then mret true
      else
        match delivery self update attempt with
        | Refused => send_attempts update clock rest
        | Delivered =>
            status_code ← post update (clock attempt);
            if bool_decide (status_code = 200) then mret true
            else if bool_decide (400 ≤ status_code < 500) then mret false
            else send_attempts update clock rest
        | AnswerLost =>
            post update (clock attempt);;
            send_attempts update clock rest
        end
  end.

(** [for attempt in range(1, self.retry_attempts + 1)] *)
Definition send_status_update (update : StatusUpdateRequest)
    (clock : nat → Z) : M bool :=
  send_attempts update clock (seq 1 (nas_retry_attempts self)).

Definition send_task_started (task_id : Z) (source_folder : string)
    (clock : nat → Z) : M bool :=
  send_status_update
    (mkStatusUpdateRequest task_id (value PROCESSING) (Some source_folder)
       None None None None None) clock.

Definition send_task_progress (task_id : Z) (percent : Z) (clock : nat → Z)
    : M bool :=
  send_status_update
    (mkStatusUpdateRequest task_id (value PROCESSING) None None None None
       None (Some percent)) clock.

Definition send_task_completed (task_id : Z) (source_folder temp_file : string)
    (processing_time file_size_mb : Z) (clock : nat → Z) : M bool :=
  send_status_update
    (mkStatusUpdateRequest task_id (value COMPLETED) (Some source_folder)
       (Some temp_file) (Some processing_time) (Some file_size_mb) None None)
    clock.

Definition send_task_failed (task_id : Z) (source_folder error : string)
    (processing_time : option Z) (clock : nat → Z) : M bool :=
  send_status_update
    (mkStatusUpdateRequest task_id (value FAILED) (Some source_folder) None
       processing_time None (Some error) None) clock.

(** [TaskStatusReporter.report_task_lifecycle]; [clock1] and [clock2] are
    the times at the NAS during the first and the second report. *)
Definition report_task_lifecycle (task_id : Z) (source_folder : string)
    (success : bool) (processing_time : Z) (temp_file : option string)
    (file_size_mb : option Z) (error : option string)
    (clock1 clock2 : nat → Z) : M bool :=
  started_ok ← send_task_started task_id source_folder clock1;
  if success && truthy temp_file && truthy_num file_size_mb
  then
    completed_ok ← send_task_completed task_id source_folder
                     (default "" temp_file) processing_time
                     (default 0 file_size_mb) clock2;
    mret (started_ok && completed_ok)
  else
    failed_ok ← send_task_failed task_id source_folder
                  (or_else error "Unknown error") (Some processing_time)
                  clock2;
    mret (started_ok && failed_ok).

End Client.

End nas_client.

(** ** Playlists ([mac-services/worker/bdmv_analyzer.py]) *)

Record PlaylistInfo : Type := mkPlaylistInfo {
  playlist_id : string;
  duration_seconds : Z
}.

Module BDMVAnalyzer.

(** [hours], [minutes] and [seconds] of [duration_formatted]. *)
Definition duration_fields (p : PlaylistInfo) : Z * Z * Z :=
  (duration_seconds p `div` 3600,
   (duration_seconds p `mod` 3600) `div` 60,
   duration_seconds p `mod` 60).

(** [_identify_main_playlist]: the first playlist of at least the minimum
    duration. *)
Definition identify_main_playlist (min_main_duration : Z)
    (playlists : list PlaylistInfo) : option PlaylistInfo :=
  head (filter (λ p, min_main_duration ≤ duration_seconds p) playlists).

(** The order that [_find_playlists] leaves its result in:
    [sort(key=duration_seconds, reverse=True)]. *)
Definition longest_first (playlists : list PlaylistInfo) : Prop :=
  Sorted (λ p q, duration_seconds q ≤ duration_seconds p) playlists.

End BDMVAnalyzer.

(** ** Statements about the whole store *)

(** [updates R c]: running [c] adds no row and removes none, leaves the
    key counter, and takes every row to one that is [R]-related to it. *)
Definition row_step (R : Task → Task → Prop) (o o' : option Task) : Prop :=
  match o, o' with
  | Some t, Some t' => R t t'
  | None, None => True
  | _, _ => False
  end.

Definition updates (R : Task → Task → Prop) {A : Type} (c : M A) : Prop :=
  ∀ w, next_id (exec c w) = next_id w
       ∧ ∀ i, row_step R (tasks w !! i) (tasks (exec c w) !! i).

(** The row updates the services make.  A status update to [retrying] is
    made in two places only, each time followed by the update to [pending]
    of the same row; the relation has to hold over the whole passage. *)
Class RowStable (R : Task → Task → Prop) : Prop := {
  stable_refl :: Reflexive R;
  stable_trans :: Transitive R;
  stable_status s now t :
    s ≠ RETRYING →
    R t (DatabaseManager.status_update_row s None None None None now t);
  stable_retry_receiver now t :
    R t (DatabaseManager.status_update_row PENDING None None None None now
           (DatabaseManager.status_update_row RETRYING None None None None
              now t));
  stable_retry_watcher now t :
    R t (DatabaseManager.status_update_row PENDING None None None None now
           (set_attempts
              (attempts (DatabaseManager.status_update_row RETRYING None None
                           None None now t) + 1)
              (DatabaseManager.status_update_row RETRYING None None None None
                 now t)));
  stable_increment t : R t (set_attempts (attempts t + 1) t);
  stable_reset t : R t (set_attempts 0 t);
  stable_error msg t : R t (set_error_message (Some msg) t);
  stable_started now t : R t (set_processing_started_at (Some now) t);
  stable_completed now t : R t (set_processing_completed_at (Some now) t);
  stable_progress percent t : R t (set_progress_percent (Some percent) t)
}.

(** Everything that changes the store: the creation of a task, the
    administrative delete, and the transitions of the lifecycle. *)
Inductive Operation : Type :=
  | Create (name path : string) (prio : Z)
  | Delete (task_id : Z)
  | Move (tr : Transition).

Definition run (op : Operation) (now : Z) (w : World) : World :=
  match op with
  | Create name path prio => exec (db_manager.create_task name path prio now) w
  | Delete task_id => exec (routes.delete_task true task_id) w
  | Move tr => apply_transition tr now w
  end.

(** The store after a history of operations, each with the time it ran at,
    from the empty store. *)
Definition history_of (ops : list (Operation * Z)) : World :=
  foldl (λ w op, run op.1 op.2 w) empty_world ops.

(** The key of every row is below the counter of the next key. *)
Definition ids_fresh (w : World) : Prop :=
  ∀ i, is_Some (tasks w !! i) → i < next_id w.

(** No two rows have the same [movie_name]. *)
Definition names_unique (w : World) : Prop :=
  ∀ i j t u, tasks w !! i = Some t → tasks w !! j = Some u →
    movie_name t = movie_name u → i = j.

(** The columns no operation writes after the creation. *)
Definition same_identity (t t' : Task) : Prop :=
  movie_name t' = movie_name t ∧ source_path t' = source_path t
  ∧ priority t' = priority t ∧ created_at t' = created_at t.

(** What holds of a row at rest: the counter is not negative, the status is
    not the passing [retrying], a task that is [processing] has its start
    timestamp and one that is [completed] or [failed] its end timestamp. *)
Definition row_at_rest (t : Task) : Prop :=
  0 ≤ attempts t
  ∧ status t ≠ RETRYING
  ∧ (status t = PROCESSING → is_Some (processing_started_at t))
  ∧ (status t = COMPLETED ∨ status t = FAILED →
     is_Some (processing_completed_at t)).

Definition rows_at_rest (w : World) : Prop :=
  ∀ i t, tasks w !! i = Some t → row_at_rest t.

(** A row at rest is taken to a row at rest. *)
Definition rest_kept (t t' : Task) : Prop := row_at_rest t → row_at_rest t'.

(** The tasks of a list that the worker accepts. *)
Definition accepted (mc : MacClient) (l : list (Z * Task)) : list (Z * Task) :=
  filter (λ r, mac_client.send_task mc (to_processing_task r) = true) l.

(** The row that the watcher's retry leaves: [retrying], one more attempt,
    [pending]. *)
Definition retried (now : Z) (t : Task) : Task :=
  DatabaseManager.status_update_row PENDING None None None None now
    (let t1 := DatabaseManager.status_update_row RETRYING None None None None
                 now t in
     set_attempts (attempts t1 + 1) t1).

(** The rows that [get_failed_tasks_for_retry] lists. *)
Definition retriable (max_attempts : Z) (w : World) : list (Z * Task) :=
  filter (λ r, status r.2 = FAILED ∧ attempts r.2 < max_attempts)
    (merge_sort DatabaseManager.listing_order (map_to_list (tasks w))).

(** Whether an output file of the movie is in the processed folder. *)
Definition output_exists (movie : string) (w : World) : bool :=
  bool_decide ((None, movie +:+ ".mkv", None) ∈ processed_files w)
  || bool_decide ((None, movie +:+ ".mp4", None) ∈ processed_files w).

(** The row that the scan creates for a movie. *)
Definition scanned_row (movie : MovieInfo) (now : Z) : Task :=
  mkTask (info_name movie) (info_path movie) PENDING
    (BluRayScanner.size_priority (info_size_bytes movie)) 0 now now
    None None None None None None None.

(** Everything but the task table and the key counter. *)
Definition same_surroundings (w w' : World) : Prop :=
  errors w' = errors w ∧ history w' = history w
  ∧ temp_files w' = temp_files w ∧ processed_files w' = processed_files w
  ∧ raw_folders w' = raw_folders w ∧ relocations w' = relocations w
  ∧ notifications w' = notifications w.

(** * Properties *)

(** ** Running the store's updates *)

Lemma set_tasks_tasks f w : tasks (set_tasks f w) = f (tasks w).
Proof. reflexivity. Qed.

Lemma update_row_run i f w :
  DatabaseManager.update_row i f w
  = (Ok (bool_decide (is_Some (tasks w !! i))), set_tasks (alter f i) w).
Proof.
  unfold DatabaseManager.update_row.
  destruct (tasks w !! i) as [t|] eqn:Hrow.
  - rewrite bool_decide_eq_true_2 by eauto. reflexivity.
  - rewrite bool_decide_eq_false_2 by (intros [? ?]; discriminate).
    f_equal. destruct w as [m ? ? ? ? ? ? ? ?]; unfold set_tasks; simpl in *.
    f_equal. symmetry. apply alter_id. intros y Hy. congruence.
Qed.

Lemma update_row_lookup i f w j :
  tasks (exec (DatabaseManager.update_row i f) w) !! j
  = if decide (i = j) then f <$> tasks w !! j else tasks w !! j.
Proof.
  unfold exec. rewrite update_row_run. simpl.
  destruct (decide (i = j)) as [->|Hne].
  - apply lookup_alter_eq.
  - apply lookup_alter_ne; done.
Qed.

(** What a status update does to the two fields the lifecycle turns on. *)
Lemma status_update_row_status s now t :
  status (DatabaseManager.status_update_row s None None None None now t) = s.
Proof. destruct s; reflexivity. Qed.

Lemma status_update_row_attempts s now t :
  attempts (DatabaseManager.status_update_row s None None None None now t)
  = if decide (s = RETRYING) then attempts t + 1 else attempts t.
Proof. destruct s; reflexivity. Qed.

Lemma status_update_row_started s now t :
  processing_started_at
    (DatabaseManager.status_update_row s None None None None now t)
  = if decide (s = PROCESSING) then Some now else processing_started_at t.
Proof. destruct s; reflexivity. Qed.

(** ** A relation kept on every row *)

Section Keeps.
Context (R : Task → Task → Prop) `{!Reflexive R, !Transitive R}.
Lemma keeps_ret {A : Type} (a : A) : keeps R (mret a).
Proof. intros w i t Hrow. exists t. split; [exact Hrow | reflexivity]. Qed.

Lemma keeps_pass : keeps R pass.
Proof. apply keeps_ret. Qed.

Lemma keeps_raise {A : Type} e : keeps R (raise e : M A).
Proof. intros w i t Hrow. exists t. split; [exact Hrow | reflexivity]. Qed.

Lemma keeps_get_world : keeps R get_world.
Proof. intros w i t Hrow. exists t. split; [exact Hrow | reflexivity]. Qed.

Lemma keeps_bind {A B : Type} (c : M A) (k : A → M B) :
  keeps R c → (∀ a, keeps R (k a)) → keeps R (c ≫= k).
Proof.
  intros Hc Hk w i t Hrow.
  destruct (Hc w i t Hrow) as (t1 & Hrow1 & Hr1).
  unfold exec, mbind, M_bind in *.
  destruct (c w) as [[a|e] w1]; simpl in *.
  - destruct (Hk a w1 i t1 Hrow1) as (t2 & Hrow2 & Hr2).
    exists t2. split; [exact Hrow2 | by transitivity t1].
  - exists t1. done.
Qed.

Lemma keeps_try_except {A : Type} (c : M A) (h : Exn → M A) :
  keeps R c → (∀ e, keeps R (h e)) → keeps R (try_except c h).
Proof.
  intros Hc Hh w i t Hrow.
  destruct (Hc w i t Hrow) as (t1 & Hrow1 & Hr1).
  unfold exec, try_except in *.
  destruct (c w) as [[a|e] w1]; simpl in *.
  - exists t1. done.
  - destruct (Hh e w1 i t1 Hrow1) as (t2 & Hrow2 & Hr2).
    exists t2. split; [exact Hrow2 | by transitivity t1].
Qed.

Lemma keeps_when b (c : M unit) : keeps R c → keeps R (when b c).
Proof. intros Hc. destruct b; [exact Hc | apply keeps_pass]. Qed.

Lemma keeps_for_each {A : Type} (l : list A) (body : A → M unit) :
  (∀ x, keeps R (body x)) → keeps R (for_each l body).
Proof.
  intros Hbody. induction l as [|x l IH]; simpl.
  - apply keeps_pass.
  - apply keeps_bind; [apply Hbody | intros _; exact IH].
Qed.

Lemma keeps_modify (f : World → World) :
  (∀ w, tasks (f w) = tasks w) → keeps R (modify f).
Proof.
  intros Hf w i t Hrow. exists t. unfold exec, modify; simpl.
  rewrite Hf. split; [exact Hrow | reflexivity].
Qed.

Lemma keeps_notify n : keeps R (notify n).
Proof. apply keeps_modify. intros w. reflexivity. Qed.

Lemma keeps_add_task (c : M unit) : keeps R c → keeps R (webhook.add_task c).
Proof. intros Hc w i t Hrow. exact (Hc w i t Hrow). Qed.

Lemma keeps_update_row i f :
  (∀ t, R t (f t)) → keeps R (DatabaseManager.update_row i f).
Proof.
  intros Hf w j t Hrow. rewrite update_row_lookup.
  destruct (decide (i = j)) as [->|Hne].
  - exists (f t). rewrite Hrow. split; [reflexivity | apply Hf].
  - exists t. split; [exact Hrow | reflexivity].
Qed.

Lemma keeps_query {A : Type} (q : World → A) : keeps R (λ w, (Ok (q w), w)).
Proof. intros w i t Hrow. exists t. split; [exact Hrow | reflexivity]. Qed.

End Keeps.



(** One step through the structure of an action. *)
Ltac keeps_step :=
  lazymatch goal with
  | |- keeps ?R (_ ≫= _) => apply (keeps_bind R); [| intros ?]
  | |- keeps ?R (try_except _ _) => apply (keeps_try_except R); [| intros ?]
  | |- keeps ?R (webhook.as_http_error _) =>
      apply (keeps_try_except R); [| intros ?]
  | |- keeps ?R (when _ _) => apply (keeps_when R)
  | |- keeps ?R (for_each _ _) => apply (keeps_for_each R); intros ?
  | |- keeps ?R (webhook.add_task _) => apply (keeps_add_task R)
  | |- keeps ?R pass => apply (keeps_pass R)
  | |- keeps ?R (mret _) => apply (keeps_ret R)
  | |- keeps ?R (raise _) => apply (keeps_raise R)
  | |- keeps ?R get_world => apply (keeps_get_world R)
  | |- keeps ?R (notify _) => apply (keeps_notify R)
  | |- keeps ?R (modify _) => apply (keeps_modify R); intros ?; reflexivity
  | |- keeps ?R (DatabaseManager.update_row _ _) =>
      apply (keeps_update_row R); intros ?
  | |- keeps ?R (DatabaseManager.get_task_by_id _) => apply (keeps_query R)
  | |- keeps ?R (DatabaseManager.get_tasks_by_status _) =>
      apply (keeps_query R)
  | |- keeps ?R (DatabaseManager.get_pending_tasks _) => apply (keeps_query R)
  | |- keeps ?R DatabaseManager.get_all_tasks => apply (keeps_query R)
  | |- keeps ?R (DatabaseManager.get_failed_tasks_for_retry _) =>
      apply (keeps_query R)
  | |- keeps ?R _ => case_match
  end.

Ltac keeps_go := cbv zeta; repeat keeps_step.

Section KeepsStore.
Context (R : Task → Task → Prop) `{!Reflexive R, !Transitive R}.

Lemma keeps_update_task_status i s now :
  (∀ t, R t (DatabaseManager.status_update_row s None None None None now t)) →
  keeps R (db_manager.update_task_status i s now).
Proof. intros Hs. apply (keeps_update_row R). exact Hs. Qed.

Lemma keeps_move_to_processed fm temp_file folder now :
  keeps R (file_manager.move_to_processed fm temp_file folder now).
Proof.
  unfold file_manager.move_to_processed, file_manager.log_relocation.
  keeps_go.
Qed.

Lemma keeps_delete_source_folder fm folder :
  keeps R (file_manager.delete_source_folder fm folder).
Proof. unfold file_manager.delete_source_folder. keeps_go. Qed.

Lemma keeps_record_processing_history i name ok :
  keeps R (db_manager.record_processing_history i name ok).
Proof. apply (keeps_modify R). intros w. reflexivity. Qed.

End KeepsStore.

Lemma same_attempts_status_update s now t :
  s ≠ RETRYING →
  same_attempts t (DatabaseManager.status_update_row s None None None None now t).
Proof.
  intros Hs. unfold same_attempts. rewrite status_update_row_attempts.
  destruct (decide (s = RETRYING)); [done | reflexivity].
Qed.


(** *** The handlers that leave [attempts] as it is *)


Lemma handle_completion_status_same_attempts g task update now :
  keeps same_attempts (webhook.handle_completion_status g task update now).
Proof.
  unfold webhook.handle_completion_status.
  repeat first
    [ apply (keeps_move_to_processed same_attempts)
    | apply (keeps_delete_source_folder same_attempts)
    | apply (keeps_record_processing_history same_attempts)
    | apply (keeps_update_task_status same_attempts);
        intros ?; by apply same_attempts_status_update
    | apply (keeps_update_row same_attempts); intros ?; reflexivity
    | keeps_step ].
Qed.


(** *** The handlers under which [attempts] does not go down *)



(** *** The dispatcher *)





Lemma dispatch_one_lookup mc task_data now w j :
  tasks (exec (WatcherService.dispatch_one mc task_data now) w) !! j
  = if decide (task_data.1 = j)
    then row_after_dispatch
           (mac_client.send_task mc (to_processing_task task_data)) now
         <$> tasks w !! j
    else tasks w !! j.
Proof.
  unfold WatcherService.dispatch_one, WatcherService.mark_sent,
    WatcherService.after_send, db_manager.update_task_status,
    DatabaseManager.update_task_status_full,
    db_manager.increment_task_attempts, row_after_dispatch,
    to_processing_task, exec.
  unfold mbind, M_bind, mret, M_ret. simpl.
  rewrite update_row_run.
  destruct (mac_client.send_task mc _); rewrite ?update_row_run; simpl.
  - destruct (decide (task_data.1 = j)) as [->|Hne].
    + apply lookup_alter_eq.
    + by apply lookup_alter_ne.
  - destruct (decide (task_data.1 = j)) as [->|Hne].
    + rewrite !lookup_alter_eq. by destruct (tasks w !! _).
    + by rewrite !lookup_alter_ne.
Qed.

Lemma dispatch_all_frame mc l now n w j :
  j ∉ l.*1 →
  tasks (exec (WatcherService.dispatch_all mc l now n) w) !! j = tasks w !! j.
Proof.
  revert n w. induction l as [|task_data l IH]; intros n w Hj; [done|].
  rewrite fmap_cons, not_elem_of_cons in Hj. destruct Hj as [Hne Hj].
  simpl. unfold exec, mbind, M_bind in *.
  pose proof (dispatch_one_lookup mc task_data now w j) as Hone.
  unfold exec in Hone.
  destruct (WatcherService.dispatch_one mc task_data now w) as [[sent|e] w1];
    simpl in *.
  - rewrite IH by done. rewrite Hone. by rewrite decide_False.
  - rewrite Hone. by rewrite decide_False.
Qed.

Lemma dispatch_one_returns mc task_data now w :
  ∃ sent, eval (WatcherService.dispatch_one mc task_data now) w = Ok sent.
Proof.
  unfold WatcherService.dispatch_one, WatcherService.mark_sent,
    WatcherService.after_send, db_manager.update_task_status,
    DatabaseManager.update_task_status_full,
    db_manager.increment_task_attempts, eval.
  unfold mbind, M_bind, mret, M_ret. simpl.
  rewrite update_row_run.
  destruct (mac_client.send_task mc _); rewrite ?update_row_run; simpl; eauto.
Qed.

Lemma dispatch_all_row mc l now n w i t t0 :
  NoDup l.*1 → (i, t) ∈ l → tasks w !! i = Some t0 →
  tasks (exec (WatcherService.dispatch_all mc l now n) w) !! i
  = Some (row_after_dispatch
            (mac_client.send_task mc (to_processing_task (i, t))) now t0).
Proof.
  revert n w. induction l as [|task_data l IH]; intros n w Hnd Hin Hrow.
  { by apply elem_of_nil in Hin. }
  rewrite fmap_cons in Hnd. apply NoDup_cons in Hnd as [Hfresh Hnd].
  simpl. unfold exec, mbind, M_bind.
  pose proof (dispatch_one_lookup mc task_data now w i) as Hone.
  destruct (dispatch_one_returns mc task_data now w) as [sent Hsent].
  unfold exec, eval in *.
  destruct (WatcherService.dispatch_one mc task_data now w) as [r w1];
    simpl in *. subst r.
  apply elem_of_cons in Hin as [Heq|Hin].
  - subst task_data. simpl in *.
    pose proof (dispatch_all_frame mc l now
                  (if sent then n + 1 else n) w1 i Hfresh) as Hframe.
    unfold exec in Hframe. rewrite Hframe, Hone. simpl.
    rewrite decide_True by done. by rewrite Hrow.
  - assert (task_data.1 ≠ i) as Hne.
    { intros <-. apply Hfresh. apply list_elem_of_fmap. by exists (task_data.1, t). }
    apply IH; [done | done |]. rewrite Hone. by rewrite decide_False.
Qed.

Lemma get_pending_tasks_run limit w :
  db_manager.get_pending_tasks limit w = (Ok (selected limit w), w).
Proof. reflexivity. Qed.

Lemma apply_limit_sublist {A : Type} limit (l : list A) :
  DatabaseManager.apply_limit limit l `sublist_of` l.
Proof.
  unfold DatabaseManager.apply_limit. case_bool_decide.
  - apply sublist_take.
  - reflexivity.
Qed.

Lemma selected_elem limit w i t :
  (i, t) ∈ selected limit w → tasks w !! i = Some t ∧ status t = PENDING.
Proof.
  unfold selected. intros Hin.
  eapply elem_of_sublist in Hin; [| apply apply_limit_sublist].
  rewrite merge_sort_Permutation in Hin.
  apply list_elem_of_filter in Hin as [Hst Hin]. simpl in Hst.
  by apply elem_of_map_to_list in Hin.
Qed.

Lemma selected_NoDup limit w : NoDup (selected limit w).*1.
Proof.
  unfold selected.
  eapply sublist_NoDup; [| apply fmap_sublist, apply_limit_sublist].
  rewrite merge_sort_Permutation.
  eapply sublist_NoDup; [| apply fmap_sublist, sublist_filter].
  apply NoDup_fst_map_to_list.
Qed.


(** ** Running the handlers *)

(** Unfolding the sequencing of an action down to the store's updates. *)
Ltac unfold_io :=
  unfold file_manager.move_to_processed, file_manager.delete_source_folder,
    file_manager.log_relocation, db_manager.update_task_status,
    DatabaseManager.update_task_status_full, db_manager.record_error,
    db_manager.increment_task_attempts, db_manager.reset_task_attempts,
    db_manager.set_processing_started, db_manager.set_processing_completed,
    db_manager.update_task_progress, db_manager.record_processing_history,
    db_manager.get_task_details, DatabaseManager.get_task_by_id,
    webhook.as_http_error, try_except, when, pass, notify, modify, raise,
    get_world;
  unfold mbind, M_bind, mret, M_ret.

(** A callback for a known task reaches the handler of its status. *)
Lemma receive_completed_run g update now w t :
  db_available g = true →
  u_status update = value COMPLETED →
  tasks w !! u_task_id update = Some t →
  exec (webhook.receive_status_update g update now) w
  = exec (webhook.handle_completion_status g t update now) w.
Proof.
  intros Hdb Hst Hrow.
  unfold webhook.receive_status_update, exec. unfold_io.
  rewrite Hdb. simpl. rewrite Hrow, Hst. reflexivity.
Qed.

Lemma receive_processing_run g update now w t :
  db_available g = true →
  u_status update = value PROCESSING →
  tasks w !! u_task_id update = Some t →
  webhook.receive_status_update g update now w
  = (Ok (mkWebhookResponse true
           ("Status update processed for task "
            +:+ pretty (u_task_id update))),
     exec (webhook.handle_processing_status g t update now) w).
Proof.
  intros Hdb Hst Hrow.
  unfold webhook.receive_status_update, webhook.handle_processing_status, exec.
  unfold_io.
  rewrite Hdb. simpl. rewrite Hrow, Hst. simpl.
  rewrite update_row_run.
  destruct (bool_decide (processing_started_at t = None));
    rewrite ?update_row_run; simpl;
    destruct (u_progress_percent update) as [percent|];
    rewrite ?update_row_run; simpl; try reflexivity;
    destruct (telegram g && bool_decide (percent ∈ [25; 50; 75]));
    reflexivity.
Qed.

Lemma receive_failed_run g update now w t :
  db_available g = true →
  u_status update = value FAILED →
  tasks w !! u_task_id update = Some t →
  exec (webhook.receive_status_update g update now) w
  = exec (webhook.handle_failed_status g t update now) w.
Proof.
  intros Hdb Hst Hrow.
  unfold webhook.receive_status_update, webhook.handle_failed_status, exec.
  unfold_io.
  rewrite Hdb. simpl. rewrite Hrow, Hst. simpl.
  rewrite !update_row_run.
  destruct (truthy_num (u_processing_time update)); simpl;
    destruct (bool_decide (attempts t < 2)); rewrite ?update_row_run; simpl;
    destruct (telegram g); reflexivity.
Qed.

(** What a [completed] callback does when the file manager is set and the
    callback names the file: one more relocation, and the status that the
    relocation's outcome decides. *)
Lemma completion_effect g fm task update now w t :
  the_file_manager g = Some fm →
  truthy (u_temp_file update) = true →
  tasks w !! u_task_id update = Some t →
  let w' := exec (webhook.handle_completion_status g task update now) w in
  let file := default "" (u_temp_file update) in
  let moved := mock_mode fm || bool_decide (file ∈ temp_files w) in
  relocations w'
    = (relocations w
       ++ [(file, or_else (u_source_folder update) (movie_name task))])%list
  ∧ status <$> tasks w' !! u_task_id update
    = Some (if moved then COMPLETED else FAILED)
  ∧ temp_files w'
    = (if mock_mode fm then temp_files w else temp_files w ∖ {[file]}).
Proof.
  intros Hfm Htemp Hrow.
  unfold webhook.handle_completion_status, exec. unfold_io.
  rewrite Hfm, Htemp. simpl.
  destruct (mock_mode fm) eqn:Hmock; simpl.
  - destruct (delete_source_after_success fm); simpl;
      rewrite !update_row_run; simpl.
    all: destruct (truthy_num _ && truthy_num _); simpl;
      destruct (telegram g); simpl.
    all: rewrite ?lookup_alter_eq, ?Hrow; simpl; done.
  - destruct (decide (default "" (u_temp_file update) ∈ temp_files w))
      as [Hin|Hin].
    + rewrite (bool_decide_eq_false_2 (_ ∉ _)) by (intros ?; done).
      rewrite (bool_decide_eq_true_2 (_ ∈ temp_files w)) by done. simpl.
      destruct (delete_source_after_success fm); simpl;
        rewrite !update_row_run; simpl.
      all: destruct (truthy_num _ && truthy_num _); simpl;
        destruct (telegram g); simpl.
      all: rewrite ?lookup_alter_eq, ?Hrow; simpl; done.
    + rewrite (bool_decide_eq_true_2 (_ ∉ _)) by done.
      rewrite (bool_decide_eq_false_2 (_ ∈ temp_files w)) by done. simpl.
      rewrite !update_row_run; simpl.
      destruct (telegram g); simpl; rewrite ?lookup_alter_eq, ?Hrow; simpl.
      all: split; [done | split; [done |]].
      all: symmetry; apply difference_disjoint_L, disjoint_singleton_r, Hin.
Qed.

(** ** C1: a [completed] callback submitted twice *)

(** C1, counterexample.  "Movie A" is [processing] and [x.mkv] is in the
    temp folder.  The first [completed] callback moves the file and leaves
    the task [completed]; the same callback again finds no file to move, so
    the relocation has run twice and the task is [failed]. *)
Lemma completed_twice_differs :
  ¬ completed_is_idempotent nas movie_a_processing (completed_callback 1)
      500 600.
Proof.
  unfold completed_is_idempotent. vm_compute. intros [Hstatus _].
  discriminate Hstatus.
Qed.

(** C1, as amended.  A [completed] callback never changes [attempts], so
    two submissions do not increment it; but the receiver does not look at
    the task's current status: each submission that names its file runs the
    relocation again (twice in all), and after the second the task is
    [completed] only under the file manager's mock mode and [failed]
    otherwise, the file having left the temp folder. *)
Theorem completed_twice_relocates_twice g fm w update now1 now2 t :
  db_available g = true →
  the_file_manager g = Some fm →
  u_status update = value COMPLETED →
  truthy (u_temp_file update) = true →
  tasks w !! u_task_id update = Some t →
  let once := exec (webhook.receive_status_update g update now1) w in
  let twice := exec (webhook.receive_status_update g update now2) once in
  attempts <$> tasks once !! u_task_id update = Some (attempts t)
  ∧ attempts <$> tasks twice !! u_task_id update = Some (attempts t)
  ∧ length (relocations twice) = S (S (length (relocations w)))
  ∧ status <$> tasks twice !! u_task_id update
    = Some (if mock_mode fm then COMPLETED else FAILED).
Proof.
  intros Hdb Hfm Hst Htemp Hrow once twice.
  assert (once = exec (webhook.handle_completion_status g t update now1) w)
    as Honce by (by apply receive_completed_run).
  destruct (handle_completion_status_same_attempts g t update now1 w _ _ Hrow)
    as (t1 & Hrow1 & Hsame1).
  rewrite <- Honce in Hrow1.
  assert (twice = exec (webhook.handle_completion_status g t1 update now2) once)
    as Htwice by (by apply receive_completed_run).
  destruct (handle_completion_status_same_attempts g t1 update now2 once _ _
              Hrow1) as (t2 & Hrow2 & Hsame2).
  rewrite <- Htwice in Hrow2.
  destruct (completion_effect g fm t update now1 w t Hfm Htemp Hrow)
    as (Hrel1 & _ & Hfiles1).
  destruct (completion_effect g fm t1 update now2 once t1 Hfm Htemp Hrow1)
    as (Hrel2 & Hstatus2 & _).
  rewrite <- Honce in Hrel1, Hfiles1. rewrite <- Htwice in Hrel2, Hstatus2.
  unfold same_attempts in *.
  repeat split.
  - rewrite Hrow1. simpl. congruence.
  - rewrite Hrow2. simpl. congruence.
  - rewrite Hrel2, Hrel1, !length_app. simpl. lia.
  - rewrite Hstatus2, Hfiles1. destruct (mock_mode fm); simpl; [done|].
    rewrite bool_decide_eq_false_2; [done|].
    rewrite not_elem_of_difference, elem_of_singleton. by right.
Qed.

(** C1, on "Movie A": the callback of the counterexample, twice. *)
Lemma completed_twice_relocates_twice_witness :
  let once :=
    exec (webhook.receive_status_update nas (completed_callback 1) 500)
      movie_a_processing in
  let twice :=
    exec (webhook.receive_status_update nas (completed_callback 1) 600) once in
  attempts <$> tasks once !! 1 = Some 0
  ∧ attempts <$> tasks twice !! 1 = Some 0
  ∧ length (relocations twice) = 2%nat
  ∧ status <$> tasks twice !! 1 = Some FAILED.
Proof.
  exact (completed_twice_relocates_twice nas (mkFileManager false false true)
           movie_a_processing (completed_callback 1) 500 600
           (mkTask "Movie A" "/raw/Movie A" PROCESSING 5 0 100 200 (Some 200)
              None None None None None None)
           eq_refl eq_refl eq_refl eq_refl
           ltac:(vm_compute; reflexivity)).
Defined.

(** ** C2: the retry budget of a failing task *)

(** What a [failed] callback does to its task: the error is recorded, and
    the task is [pending] again when the attempts it had were below 2.  The
    counter goes up by one for the failure and by one more for the pass
    through [retrying]. *)
Lemma failed_callback_effect g update now w t :
  db_available g = true →
  u_status update = value FAILED →
  tasks w !! u_task_id update = Some t →
  ∃ t',
    tasks (exec (webhook.receive_status_update g update now) w)
      !! u_task_id update = Some t'
    ∧ status t' = (if bool_decide (attempts t < 2) then PENDING else FAILED)
    ∧ attempts t'
      = attempts t + (if bool_decide (attempts t < 2) then 2 else 1)
    ∧ error_message t' = Some (or_else (u_error update) "Unknown error").
Proof.
  intros Hdb Hst Hrow.
  rewrite (receive_failed_run g update now w t) by done.
  unfold webhook.handle_failed_status, exec. unfold_io.
  rewrite !update_row_run.
  destruct (truthy_num (u_processing_time update));
    destruct (bool_decide (attempts t < 2)); rewrite ?update_row_run; simpl;
    destruct (telegram g); simpl; rewrite ?lookup_alter_eq, Hrow; simpl.
  all: eexists; split; [reflexivity |]; simpl.
  all: repeat split; lia.
Qed.

(** C2.  "Movie A" fails on the worker, is dispatched again and fails again.
    After the first failure it is [pending] with [attempts] 2 already; the
    second failure finds 2 attempts, does not retry, and leaves the task
    [failed] with [attempts] 3.  There it stays: the watcher's retry with a
    maximum of 3 passes it by, the scanner counts the movie as done, and a
    new task of its name is refused.  Two tries in all, where the handler's
    own comment says "Max 3 attempts total". *)
Theorem two_failures_exhaust_retries :
  (status <$> tasks movie_a_failed_once !! 1,
   attempts <$> tasks movie_a_failed_once !! 1) = (Some PENDING, Some 2)
  ∧ status <$> tasks movie_a_sent_again !! 1 = Some SENT
  ∧ (status <$> tasks movie_a_failed_twice !! 1,
     attempts <$> tasks movie_a_failed_twice !! 1) = (Some FAILED, Some 3)
  ∧ (status <$> tasks (apply_transition (RetryFailed 3) 410
                         movie_a_failed_twice) !! 1,
     attempts <$> tasks (apply_transition (RetryFailed 3) 410
                           movie_a_failed_twice) !! 1)
    = (Some FAILED, Some 3)
  ∧ eval (scanner.is_movie_already_processed 3 "Movie A") movie_a_failed_twice
    = Ok true
  ∧ db_manager.create_task "Movie A" "/raw/Movie A" 5 420 movie_a_failed_twice
    = (Raised (ValueError "Task for movie 'Movie A' already exists"),
       movie_a_failed_twice).
Proof. vm_compute. done. Qed.

(** ** C3: how [attempts] moves *)

Lemma value_inj : Inj (=) (=) value.
Proof. intros [] [] Heq; done. Qed.

Lemma restartable_value s :
  value s ∈ [value COMPLETED; value FAILED] ↔ s = COMPLETED ∨ s = FAILED.
Proof.
  rewrite !elem_of_cons, elem_of_nil.
  split.
  - intros [Heq | [Heq | []]]; apply value_inj in Heq; auto.
  - intros [-> | ->]; auto.
Qed.

(** The administrative restart: a [completed] or [failed] task goes back to
    [pending] and its counter is cleared; nothing else is touched. *)
Lemma restart_effect i now w j t :
  tasks w !! j = Some t →
  tasks (exec (routes.restart_task true i now) w) !! j
  = Some (if decide (i = j ∧ (status t = COMPLETED ∨ status t = FAILED))
          then set_attempts 0
                 (DatabaseManager.status_update_row PENDING None None None
                    None now t)
          else t).
Proof.
  intros Hrow. unfold routes.restart_task, exec. unfold_io. simpl.
  destruct (decide (i = j)) as [->|Hne].
  - rewrite Hrow.
    destruct (decide (status t = COMPLETED ∨ status t = FAILED)) as [Hst|Hst].
    + rewrite bool_decide_eq_false_2
        by (intros Hnot; apply Hnot; by apply restartable_value).
      rewrite !update_row_run. simpl.
      rewrite !lookup_alter_eq, Hrow. simpl.
      rewrite decide_True by done. reflexivity.
    + rewrite bool_decide_eq_true_2
        by (intros Hin; apply Hst; by apply restartable_value).
      simpl. rewrite Hrow. rewrite decide_False by tauto. reflexivity.
  - rewrite decide_False by tauto.
    destruct (tasks w !! i) as [ti|] eqn:Hrowi; simpl; [| done].
    case_bool_decide; simpl; [done |].
    rewrite !update_row_run. simpl. by rewrite !lookup_alter_ne.
Qed.





(** ** C4: a [completed] callback whose relocation fails *)

(** C4.  When the callback names no file, or the file is not in the temp
    folder, the task ends [failed] and the post-processing error is
    recorded, but [attempts] stays as it was: this failure path has no
    increment, where the handler of a [failed] callback has one. *)
Theorem failed_relocation_keeps_attempts g fm update now w t :
  db_available g = true →
  the_file_manager g = Some fm →
  u_status update = value COMPLETED →
  tasks w !! u_task_id update = Some t →
  truthy (u_temp_file update) = false
  ∨ (mock_mode fm = false ∧ default "" (u_temp_file update) ∉ temp_files w) →
  ∃ t' reason,
    tasks (exec (webhook.receive_status_update g update now) w)
      !! u_task_id update = Some t'
    ∧ status t' = FAILED
    ∧ error_message t' = Some ("Post-processing error: " +:+ reason)
    ∧ attempts t' = attempts t.
Proof.
  intros Hdb Hfm Hst Hrow Hfails.
  rewrite (receive_completed_run g update now w t) by done.
  unfold webhook.handle_completion_status, exec. unfold_io.
  destruct (truthy (u_temp_file update)) eqn:Htemp; simpl.
  - destruct Hfails as [Hfalse | [Hmock Hmissing]]; [done |].
    rewrite Hfm, Hmock. simpl.
    rewrite (bool_decide_eq_true_2 (_ ∉ _)) by done. simpl.
    rewrite !update_row_run. simpl.
    destruct (telegram g); simpl; rewrite !lookup_alter_eq, Hrow; simpl.
    all: eexists; eexists; split; [reflexivity |]; simpl; done.
  - rewrite !update_row_run. simpl.
    destruct (telegram g); simpl; rewrite !lookup_alter_eq, Hrow; simpl.
    all: eexists; eexists; split; [reflexivity |]; simpl; done.
Qed.

(** C4, on "Movie A": a [completed] callback that names no file. *)
Lemma failed_relocation_keeps_attempts_witness :
  ∃ t' reason,
    tasks (exec (webhook.receive_status_update nas (callback 1 COMPLETED) 500)
             movie_a_processing) !! 1 = Some t'
    ∧ status t' = FAILED
    ∧ error_message t' = Some ("Post-processing error: " +:+ reason)
    ∧ attempts t' = 0.
Proof.
  exact (failed_relocation_keeps_attempts nas (mkFileManager false false true)
           (callback 1 COMPLETED) 500 movie_a_processing
           (mkTask "Movie A" "/raw/Movie A" PROCESSING 5 0 100 200 (Some 200)
              None None None None None None)
           eq_refl eq_refl eq_refl ltac:(vm_compute; reflexivity)
           (or_introl eq_refl)).
Defined.

(** ** C5: a delivery that fails *)

(** C5, counterexample.  The worker cannot be reached for three cycles, so
    "Movie A" is [pending] with [attempts] 3.  The fourth failed delivery
    does not make it [failed]: it is [pending] again, with [attempts] 4. *)
Lemma dispatch_at_maximum_stays_pending :
  ¬ dispatch_failure_is_bounded 3 1 unreachable_worker 110
      (movie_a_undelivered 3) 1.
Proof.
  intros Hbounded.
  assert (∃ t, selected 1 (movie_a_undelivered 3) = [(1, t)]
               ∧ attempts t = 3)
    as (t & Hsel & Hatt) by (vm_compute; eauto).
  assert (∃ t', tasks (exec (WatcherService.process_pending_tasks 1
                               unreachable_worker 110)
                         (movie_a_undelivered 3)) !! 1 = Some t'
                ∧ status t' = PENDING)
    as (t' & Hrow' & Hst) by (vm_compute; eauto).
  specialize (Hbounded t t').
  rewrite Hsel, Hatt in Hbounded.
  rewrite decide_True in Hbounded by lia.
  rewrite Hbounded in Hst; [done | apply list_elem_of_singleton; done
                           | reflexivity | exact Hrow'].
Qed.

(** C5, as amended.  For every pending task the dispatcher selects, a
    delivery that fails leaves the task [pending] with [attempts] one higher,
    whatever the count was: the dispatcher compares [attempts] with no
    maximum. *)
Theorem failed_dispatch_returns_to_pending limit mc now w i t :
  (i, t) ∈ selected limit w →
  mac_client.send_task mc (to_processing_task (i, t)) = false →
  ∃ t',
    tasks (exec (WatcherService.process_pending_tasks limit mc now) w) !! i
      = Some t'
    ∧ status t' = PENDING
    ∧ attempts t' = attempts t + 1.
Proof.
  intros Hsel Hsend.
  destruct (selected_elem limit w i t Hsel) as [Hrow _].
  unfold WatcherService.process_pending_tasks, exec, mbind, M_bind.
  rewrite get_pending_tasks_run.
  pose proof (dispatch_all_row mc (selected limit w) now 0 w i t t
                (selected_NoDup limit w) Hsel Hrow) as Hexact.
  unfold exec in Hexact. rewrite Hexact, Hsend.
  eexists. split; [reflexivity |]. done.
Qed.

(** C5, on "Movie A": one cycle with the worker out of reach. *)
Lemma failed_dispatch_returns_to_pending_witness :
  ∃ t',
    tasks (exec (WatcherService.process_pending_tasks 1 unreachable_worker 110)
             movie_a_pending) !! 1 = Some t'
    ∧ status t' = PENDING
    ∧ attempts t' = 0 + 1.
Proof.
  exact (failed_dispatch_returns_to_pending 1 unreachable_worker 110
           movie_a_pending 1
           (mkTask "Movie A" "/raw/Movie A" PENDING 5 0 100 100 None None None
              None None None None)
           ltac:(vm_compute; apply list_elem_of_singleton; reflexivity)
           eq_refl).
Defined.

(** ** C6 and C9: a [processing] report *)

(** What a [processing] report does to its task, whatever the task's status
    was: the status and the start timestamp are written by the status
    update, the progress is stored when the report carries one. *)
Lemma processing_effect g task update now w t :
  tasks w !! u_task_id update = Some t →
  ∃ t',
    tasks (exec (webhook.handle_processing_status g task update now) w)
      !! u_task_id update = Some t'
    ∧ status t' = PROCESSING
    ∧ attempts t' = attempts t
    ∧ processing_started_at t' = Some now
    ∧ progress_percent t'
      = (if u_progress_percent update is Some percent
         then Some percent else progress_percent t).
Proof.
  intros Hrow.
  unfold webhook.handle_processing_status, exec. unfold_io.
  rewrite update_row_run.
  destruct (bool_decide (processing_started_at task = None));
    rewrite ?update_row_run; simpl;
    destruct (u_progress_percent update) as [percent|];
    rewrite ?update_row_run; simpl;
    try destruct (telegram g && bool_decide (percent ∈ [25; 50; 75])); simpl;
    rewrite ?lookup_alter_eq, Hrow; simpl.
  all: eexists; split; [reflexivity |]; simpl; done.
Qed.

(** C6, counterexample.  "Movie A" is [completed] when a late progress
    report of 90 percent arrives: the report is not ignored, the task is
    [processing] again. *)
Lemma late_progress_reopens_task :
  ¬ progress_keeps_status nas movie_a_completed (progress_report 1 90) 600.
Proof.
  intros Hkeeps.
  assert (∃ t, tasks movie_a_completed !! 1 = Some t ∧ status t = COMPLETED)
    as (t & Hrow & Hbefore) by (vm_compute; eauto).
  assert (∃ t', tasks (exec (webhook.receive_status_update nas
                               (progress_report 1 90) 600)
                         movie_a_completed) !! 1 = Some t'
                ∧ status t' = PROCESSING)
    as (t' & Hrow' & Hafter) by (vm_compute; eauto).
  destruct (Hkeeps t t' Hrow Hrow') as [Hsame _]. congruence.
Qed.

(** C6, as amended.  A progress report is a [processing] status update: for
    a known task it is acknowledged, stores the reported value and sets the
    status to [processing] whatever the status was, so the status is
    unchanged only for a task that was [processing] already; no status makes
    the receiver ignore the report. *)
Theorem progress_report_sets_processing g update now w t percent :
  db_available g = true →
  u_status update = value PROCESSING →
  u_progress_percent update = Some percent →
  tasks w !! u_task_id update = Some t →
  eval (webhook.receive_status_update g update now) w
    = Ok (mkWebhookResponse true
            ("Status update processed for task "
             +:+ pretty (u_task_id update)))
  ∧ ∃ t',
      tasks (exec (webhook.receive_status_update g update now) w)
        !! u_task_id update = Some t'
      ∧ status t' = PROCESSING
      ∧ progress_percent t' = Some percent.
Proof.
  intros Hdb Hst Hpercent Hrow.
  unfold eval, exec.
  rewrite (receive_processing_run g update now w t) by done. simpl.
  split; [reflexivity |].
  destruct (processing_effect g t update now w t Hrow)
    as (t' & Hrow' & Hstatus & _ & _ & Hprogress).
  exists t'. rewrite Hpercent in Hprogress. done.
Qed.

(** C6, on "Movie A": the first progress report finds the task [sent]. *)
Lemma progress_report_sets_processing_witness :
  eval (webhook.receive_status_update nas (progress_report 1 10) 150)
    movie_a_sent
    = Ok (mkWebhookResponse true "Status update processed for task 1")
  ∧ ∃ t',
      tasks (exec (webhook.receive_status_update nas (progress_report 1 10)
                     150) movie_a_sent) !! 1 = Some t'
      ∧ status t' = PROCESSING
      ∧ progress_percent t' = Some 10.
Proof.
  exact (progress_report_sets_processing nas (progress_report 1 10) 150
           movie_a_sent
           (mkTask "Movie A" "/raw/Movie A" SENT 5 0 100 110 None None None
              None None None None)
           10 eq_refl eq_refl eq_refl ltac:(vm_compute; reflexivity)).
Defined.

(** C9.  A [processing] report for a task whose start timestamp is set
    writes the timestamp again: the status update sets
    [processing_started_at] on every [processing] update, before the
    handler's "if not already set" test is reached. *)
Theorem processing_report_overwrites_start g update now w t started :
  db_available g = true →
  u_status update = value PROCESSING →
  tasks w !! u_task_id update = Some t →
  processing_started_at t = Some started →
  ∃ t',
    tasks (exec (webhook.receive_status_update g update now) w)
      !! u_task_id update = Some t'
    ∧ processing_started_at t' = Some now.
Proof.
  intros Hdb Hst Hrow _.
  unfold exec.
  rewrite (receive_processing_run g update now w t) by done. simpl.
  destruct (processing_effect g t update now w t Hrow)
    as (t' & Hrow' & _ & _ & Hstarted & _).
  exists t'. done.
Qed.

(** C9, on "Movie A": started at 200, reported again at 250. *)
Lemma processing_report_overwrites_start_witness :
  processing_started_at <$> tasks movie_a_processing !! 1 = Some (Some 200)
  ∧ ∃ t',
      tasks (exec (webhook.receive_status_update nas (progress_report 1 50)
                     250) movie_a_processing) !! 1 = Some t'
      ∧ processing_started_at t' = Some 250.
Proof.
  split; [vm_compute; reflexivity |].
  exact (processing_report_overwrites_start nas (progress_report 1 50) 250
           movie_a_processing
           (mkTask "Movie A" "/raw/Movie A" PROCESSING 5 0 100 200 (Some 200)
              None None None None None None)
           200 eq_refl eq_refl ltac:(vm_compute; reflexivity) eq_refl).
Defined.

(** ** C7: what puts a task in flight back in the queue *)








(** ** C8: how many tasks are in flight *)





(** ** C10: deleting a task *)

(** The store's own [delete_task] has no test of the status: the guard is
    the route's. *)
Lemma store_delete_has_no_guard w i t :
  tasks w !! i = Some t →
  eval (DatabaseManager.delete_task i) w = Ok true
  ∧ tasks (exec (DatabaseManager.delete_task i) w) !! i = None.
Proof.
  intros Hrow. unfold eval, exec, DatabaseManager.delete_task.
  rewrite Hrow. simpl. split; [reflexivity | apply lookup_delete_eq].
Qed.



(** * Further properties of the code *)

(** ** What every operation keeps of the store *)

Section Updates.
Context (R : Task → Task → Prop) `{!Reflexive R, !Transitive R}.

Lemma row_step_refl o : row_step R o o.
Proof. destruct o; simpl; done. Qed.

Lemma row_step_trans o1 o2 o3 :
  row_step R o1 o2 → row_step R o2 o3 → row_step R o1 o3.
Proof.
  destruct o1, o2, o3; simpl; try done. intros H12 H23. by transitivity t0.
Qed.

Lemma updates_same {A : Type} (c : M A) :
  (∀ w, exec c w = w) → updates R c.
Proof.
  intros Hc w. rewrite Hc. split; [done | intros i; apply row_step_refl].
Qed.

Lemma updates_ret {A : Type} (a : A) : updates R (mret a).
Proof. by apply updates_same. Qed.

Lemma updates_pass : updates R pass.
Proof. by apply updates_same. Qed.

Lemma updates_raise {A : Type} e : updates R (raise e : M A).
Proof. by apply updates_same. Qed.

Lemma updates_get_world : updates R get_world.
Proof. by apply updates_same. Qed.

Lemma updates_query {A : Type} (q : World → A) : updates R (λ w, (Ok (q w), w)).
Proof. by apply updates_same. Qed.

Lemma updates_bind {A B : Type} (c : M A) (k : A → M B) :
  updates R c → (∀ a, updates R (k a)) → updates R (c ≫= k).
Proof.
  intros Hc Hk w. destruct (Hc w) as [Hn Hrows].
  unfold exec, mbind, M_bind in *.
  destruct (c w) as [[a|e] w1]; simpl in *; [| done].
  destruct (Hk a w1) as [Hn1 Hrows1]. unfold exec in *.
  split; [congruence |].
  intros i. eapply row_step_trans; [apply Hrows | apply Hrows1].
Qed.

Lemma updates_try_except {A : Type} (c : M A) (h : Exn → M A) :
  updates R c → (∀ e, updates R (h e)) → updates R (try_except c h).
Proof.
  intros Hc Hh w. destruct (Hc w) as [Hn Hrows].
  unfold exec, try_except in *.
  destruct (c w) as [[a|e] w1]; simpl in *; [done |].
  destruct (Hh e w1) as [Hn1 Hrows1]. unfold exec in *.
  split; [congruence |].
  intros i. eapply row_step_trans; [apply Hrows | apply Hrows1].
Qed.

Lemma updates_when b (c : M unit) : updates R c → updates R (when b c).
Proof. intros Hc. destruct b; [exact Hc | apply updates_pass]. Qed.

Lemma updates_for_each {A : Type} (l : list A) (body : A → M unit) :
  (∀ x, updates R (body x)) → updates R (for_each l body).
Proof.
  intros Hbody. induction l as [|x l IH]; simpl.
  - apply updates_pass.
  - apply updates_bind; [apply Hbody | intros _; exact IH].
Qed.

Lemma updates_modify (f : World → World) :
  (∀ w, tasks (f w) = tasks w) → (∀ w, next_id (f w) = next_id w) →
  updates R (modify f).
Proof.
  intros Ht Hn w. unfold exec, modify; simpl. split; [apply Hn |].
  intros i. rewrite Ht. apply row_step_refl.
Qed.

Lemma updates_add_task (c : M unit) : updates R c → updates R (webhook.add_task c).
Proof. intros Hc w. exact (Hc w). Qed.

Lemma updates_update_row i f :
  (∀ t, R t (f t)) → updates R (DatabaseManager.update_row i f).
Proof.
  intros Hf w. unfold exec. rewrite update_row_run. simpl.
  split; [done |]. intros j.
  destruct (decide (i = j)) as [->|Hne].
  - rewrite lookup_alter_eq. destruct (tasks w !! j); simpl; [apply Hf | done].
  - rewrite lookup_alter_ne by done. apply row_step_refl.
Qed.

(** Two and three updates of one row in a row. *)
Lemma updates_update_row_twice i f g :
  (∀ t, R t (g (f t))) →
  updates R (DatabaseManager.update_row i f;;
             DatabaseManager.update_row i g;; pass).
Proof.
  intros Hfg w. unfold exec, mbind, M_bind, pass, mret, M_ret.
  rewrite !update_row_run. simpl. split; [done |]. intros j.
  destruct (decide (i = j)) as [->|Hne].
  - rewrite !lookup_alter_eq.
    destruct (tasks w !! j); simpl; [apply Hfg | done].
  - rewrite !lookup_alter_ne by done. apply row_step_refl.
Qed.

Lemma updates_update_row_thrice i f g h :
  (∀ t, R t (h (g (f t)))) →
  updates R (DatabaseManager.update_row i f;;
             DatabaseManager.update_row i g;;
             DatabaseManager.update_row i h;; pass).
Proof.
  intros Hfgh w. unfold exec, mbind, M_bind, pass, mret, M_ret.
  rewrite !update_row_run. simpl. split; [done |]. intros j.
  destruct (decide (i = j)) as [->|Hne].
  - rewrite !lookup_alter_eq.
    destruct (tasks w !! j); simpl; [apply Hfgh | done].
  - rewrite !lookup_alter_ne by done. apply row_step_refl.
Qed.

End Updates.

(** One step through the structure of an action. *)
Ltac updates_step :=
  lazymatch goal with
  | |- updates ?R (DatabaseManager.update_row _ _ ≫= λ _,
                   DatabaseManager.update_row _ _ ≫= λ _,
                   DatabaseManager.update_row _ _ ≫= λ _, pass) =>
      apply (updates_update_row_thrice R); intros ?
  | |- updates ?R (DatabaseManager.update_row _ _ ≫= λ _,
                   DatabaseManager.update_row _ _ ≫= λ _, pass) =>
      apply (updates_update_row_twice R); intros ?
  | |- updates ?R (_ ≫= _) => apply (updates_bind R); [| intros ?]
  | |- updates ?R (try_except _ _) => apply (updates_try_except R); [| intros ?]
  | |- updates ?R (webhook.as_http_error _) =>
      apply (updates_try_except R); [| intros ?]
  | |- updates ?R (when _ _) => apply (updates_when R)
  | |- updates ?R (for_each _ _) => apply (updates_for_each R); intros ?
  | |- updates ?R (webhook.add_task _) => apply (updates_add_task R)
  | |- updates ?R pass => apply (updates_pass R)
  | |- updates ?R (mret _) => apply (updates_ret R)
  | |- updates ?R (raise _) => apply (updates_raise R)
  | |- updates ?R get_world => apply (updates_get_world R)
  | |- updates ?R (notify _) =>
      apply (updates_modify R); intros ?; reflexivity
  | |- updates ?R (modify _) =>
      apply (updates_modify R); intros ?; reflexivity
  | |- updates ?R (DatabaseManager.update_row _ _) =>
      apply (updates_update_row R); intros ?
  | |- updates ?R (DatabaseManager.get_task_by_id _) => apply (updates_query R)
  | |- updates ?R (DatabaseManager.get_tasks_by_status _) =>
      apply (updates_query R)
  | |- updates ?R (DatabaseManager.get_pending_tasks _) =>
      apply (updates_query R)
  | |- updates ?R DatabaseManager.get_all_tasks => apply (updates_query R)
  | |- updates ?R (DatabaseManager.get_failed_tasks_for_retry _) =>
      apply (updates_query R)
  | |- updates ?R _ => case_match
  end.

Ltac unfold_store :=
  unfold file_manager.move_to_processed, file_manager.delete_source_folder,
    file_manager.log_relocation, db_manager.update_task_status,
    DatabaseManager.update_task_status_full, db_manager.record_error,
    db_manager.increment_task_attempts, db_manager.reset_task_attempts,
    db_manager.set_processing_started, db_manager.set_processing_completed,
    db_manager.update_task_progress, db_manager.record_processing_history,
    db_manager.get_task_details.

Section Stable.
Context (R : Task → Task → Prop) `{!RowStable R}.

Ltac stable_row :=
  cbv beta;
  lazymatch goal with
  | |- _ _ (DatabaseManager.status_update_row PENDING _ _ _ _ _
              (DatabaseManager.status_update_row RETRYING _ _ _ _ _ _)) =>
      apply stable_retry_receiver
  | |- _ _ (DatabaseManager.status_update_row PENDING _ _ _ _ _
              (set_attempts _ _)) =>
      apply stable_retry_watcher
  | |- _ _ (DatabaseManager.status_update_row _ _ _ _ _ _ _) =>
      by apply stable_status
  | |- _ _ (set_attempts 0 _) => apply stable_reset
  | |- _ _ (set_attempts _ _) => apply stable_increment
  | |- _ _ (set_error_message _ _) => apply stable_error
  | |- _ _ (set_processing_started_at _ _) => apply stable_started
  | |- _ _ (set_processing_completed_at _ _) => apply stable_completed
  | |- _ _ (set_progress_percent _ _) => apply stable_progress
  end.

Ltac updates_go := cbv zeta; repeat (updates_step; try stable_row).

Lemma receive_status_update_updates g update now :
  updates R (webhook.receive_status_update g update now).
Proof.
  unfold webhook.receive_status_update, webhook.handle_processing_status,
    webhook.handle_completion_status, webhook.handle_failed_status.
  unfold_store. updates_go.
Qed.

Lemma worker_shutdown_updates g worker_id now :
  updates R (webhook.worker_shutdown_notification g worker_id now).
Proof.
  unfold webhook.worker_shutdown_notification. unfold_store. updates_go.
Qed.

Lemma restart_task_updates available task_id now :
  updates R (routes.restart_task available task_id now).
Proof. unfold routes.restart_task. unfold_store. updates_go. Qed.

Lemma dispatch_one_updates mc task_data now :
  updates R (WatcherService.dispatch_one mc task_data now).
Proof.
  unfold WatcherService.dispatch_one, WatcherService.mark_sent,
    WatcherService.after_send.
  unfold_store. updates_go.
Qed.

Lemma process_pending_tasks_updates limit mc now :
  updates R (WatcherService.process_pending_tasks limit mc now).
Proof.
  unfold WatcherService.process_pending_tasks.
  apply (updates_bind R); [apply (updates_query R) |].
  intros l. generalize 0. induction l as [|task_data l IH]; intros n; simpl.
  - apply (updates_ret R).
  - apply (updates_bind R); [apply dispatch_one_updates | intros ?; apply IH].
Qed.

Lemma retry_failed_tasks_updates max_attempts now :
  updates R (WatcherService.retry_failed_tasks max_attempts now).
Proof.
  unfold WatcherService.retry_failed_tasks.
  apply (updates_bind R); [apply (updates_query R) |].
  intros l. generalize 0. induction l as [|task_data l IH]; intros n; simpl.
  - apply (updates_ret R).
  - apply (updates_bind R); [| intros _; apply IH].
    unfold WatcherService.retry_one. unfold_store. updates_go.
Qed.

Lemma apply_transition_updates tr now w :
  next_id (apply_transition tr now w) = next_id w
  ∧ ∀ i, row_step R (tasks w !! i) (tasks (apply_transition tr now w) !! i).
Proof.
  destruct tr; simpl.
  - apply process_pending_tasks_updates.
  - apply retry_failed_tasks_updates.
  - apply receive_status_update_updates.
  - apply worker_shutdown_updates.
  - apply restart_task_updates.
Qed.

End Stable.

(** *** The relations that every row update keeps *)

Lemma same_identity_stable : RowStable same_identity.
Proof.
  split.
  - intros t. by repeat split.
  - intros t1 t2 t3 (? & ? & ? & ?) (? & ? & ? & ?).
    repeat split; congruence.
  - intros s now t _. by destruct s.
  - done.
  - done.
  - done.
  - done.
  - done.
  - done.
  - done.
  - done.
Qed.

Lemma rest_kept_stable : RowStable rest_kept.
Proof.
  unfold rest_kept, row_at_rest. split.
  - intros t. done.
  - intros t1 t2 t3 H12 H23 H1. auto.
  - intros s now t Hs (Ha & Hr & Hp & Hc).
    destruct s; simpl; repeat split; try done; try (intros [?|?]; done);
      eauto.
  - intros now t (Ha & Hr & Hp & Hc). simpl.
    repeat split; try done; try lia; intros [?|?]; done.
  - intros now t (Ha & Hr & Hp & Hc). simpl.
    repeat split; try done; try lia; intros [?|?]; done.
  - intros t (Ha & Hr & Hp & Hc). simpl. repeat split; try done; lia.
  - intros t (Ha & Hr & Hp & Hc). simpl. repeat split; done.
  - intros msg t (Ha & Hr & Hp & Hc). simpl. repeat split; done.
  - intros now t (Ha & Hr & Hp & Hc). simpl. repeat split; eauto.
  - intros now t (Ha & Hr & Hp & Hc). simpl. repeat split; eauto.
  - intros percent t (Ha & Hr & Hp & Hc). simpl. repeat split; done.
Qed.

(** *** The creation and the delete *)

Lemma name_taken_spec name w :
  DatabaseManager.name_taken name w = true
  ↔ ∃ i t, tasks w !! i = Some t ∧ movie_name t = name.
Proof.
  unfold DatabaseManager.name_taken. rewrite bool_decide_eq_true, list_elem_of_fmap.
  split.
  - intros ([i t] & -> & Hin). apply elem_of_map_to_list in Hin. eauto.
  - intros (i & t & Hrow & <-). exists (i, t).
    split; [done | by apply elem_of_map_to_list].
Qed.

Lemma create_task_run name path prio now w :
  (DatabaseManager.name_taken name w = true
   ∧ db_manager.create_task name path prio now w
     = (Raised (ValueError ("Task for movie '" +:+ name
                            +:+ "' already exists")), w))
  ∨ (DatabaseManager.name_taken name w = false
     ∧ eval (db_manager.create_task name path prio now) w = Ok (next_id w)
     ∧ tasks (exec (db_manager.create_task name path prio now) w)
       = <[next_id w := mkTask name path PENDING prio 0 now now None None
                          None None None None None]> (tasks w)
     ∧ next_id (exec (db_manager.create_task name path prio now) w)
       = next_id w + 1).
Proof.
  unfold db_manager.create_task, DatabaseManager.create_task, eval, exec.
  destruct (DatabaseManager.name_taken name w); [left | right]; done.
Qed.

Lemma route_delete_run available i w :
  next_id (exec (routes.delete_task available i) w) = next_id w
  ∧ (tasks (exec (routes.delete_task available i) w) = tasks w
     ∨ tasks (exec (routes.delete_task available i) w) = delete i (tasks w)).
Proof.
  unfold exec, routes.delete_task, DatabaseManager.delete_task. unfold_io.
  destruct available; simpl; [| auto].
  destruct (tasks w !! i) as [t|] eqn:Hrow; simpl; [| auto].
  case_bool_decide; simpl; [auto |]. rewrite Hrow. simpl. auto.
Qed.

(** *** The store over a history of operations *)

Lemma run_next_id op now w : next_id w ≤ next_id (run op now w).
Proof.
  destruct op as [name path prio | i | tr]; simpl.
  - destruct (create_task_run name path prio now w)
      as [[_ Hrun] | (_ & _ & _ & Hn)].
    + unfold exec. rewrite Hrun. done.
    + lia.
  - destruct (route_delete_run true i w) as [Hn _]. lia.
  - destruct (apply_transition_updates same_identity
                (RowStable0 := same_identity_stable) tr now w) as [Hn _].
    lia.
Qed.

Lemma run_all_next_id ops w :
  next_id w ≤ next_id (foldl (λ w op, run op.1 op.2 w) w ops).
Proof.
  revert w. induction ops as [|[op now] ops IH]; intros w; simpl; [done |].
  etrans; [apply (run_next_id op now) | apply IH].
Qed.

Lemma run_ids_fresh op now w : ids_fresh w → ids_fresh (run op now w).
Proof.
  intros Hw. destruct op as [name path prio | i | tr]; simpl.
  - destruct (create_task_run name path prio now w)
      as [[_ Hrun] | (_ & _ & Ht & Hn)].
    + unfold exec. rewrite Hrun. done.
    + intros j. rewrite Ht, Hn. intros Hj.
      destruct (decide (next_id w = j)) as [<-|Hne]; [lia |].
      rewrite lookup_insert_ne in Hj by done. apply Hw in Hj. lia.
  - destruct (route_delete_run true i w) as [Hn [Ht|Ht]];
      intros j; rewrite Ht, Hn; [apply Hw |].
    intros Hj. apply Hw. destruct (decide (i = j)) as [->|Hne].
    + rewrite lookup_delete_eq in Hj. by destruct Hj.
    + by rewrite lookup_delete_ne in Hj.
  - destruct (apply_transition_updates same_identity
                (RowStable0 := same_identity_stable) tr now w) as [Hn Hrows].
    intros j Hj. rewrite Hn. apply Hw. specialize (Hrows j).
    destruct (tasks w !! j); [eauto |].
    destruct (tasks (apply_transition tr now w) !! j); [done |].
    by destruct Hj.
Qed.

Lemma run_names_unique op now w : names_unique w → names_unique (run op now w).
Proof.
  intros Hw. destruct op as [name path prio | i | tr]; simpl.
  - destruct (create_task_run name path prio now w)
      as [[_ Hrun] | (Hfree & _ & Ht & _)].
    + unfold exec. rewrite Hrun. done.
    + assert (∀ j u, tasks w !! j = Some u → movie_name u ≠ name) as Hname.
      { intros j u Hj Hu.
        assert (DatabaseManager.name_taken name w = true) as Htaken
          by (apply name_taken_spec; eauto).
        congruence. }
      intros j k t u. rewrite Ht.
      destruct (decide (next_id w = j)) as [<-|Hj],
               (decide (next_id w = k)) as [<-|Hk]; [done | | |].
      * rewrite lookup_insert_eq, lookup_insert_ne by done.
        intros [= <-] Hu Heq. simpl in Heq. by destruct (Hname k u).
      * rewrite lookup_insert_eq, lookup_insert_ne by done.
        intros Htj [= <-] Heq. simpl in Heq. by destruct (Hname j t).
      * rewrite !lookup_insert_ne by done. apply Hw.
  - destruct (route_delete_run true i w) as [_ [Ht|Ht]];
      intros j k t u; rewrite Ht; [apply Hw |].
    intros Hj Hk. apply lookup_delete_Some in Hj as [_ Hj].
    apply lookup_delete_Some in Hk as [_ Hk]. by apply (Hw j k).
  - destruct (apply_transition_updates same_identity
                (RowStable0 := same_identity_stable) tr now w) as [_ Hrows].
    intros j k t u Hj Hk Heq.
    pose proof (Hrows j) as Hsj. pose proof (Hrows k) as Hsk.
    rewrite Hj in Hsj. rewrite Hk in Hsk.
    destruct (tasks w !! j) as [t0|] eqn:Hj0; [| done].
    destruct (tasks w !! k) as [u0|] eqn:Hk0; [| done].
    destruct Hsj as (Hnt & _), Hsk as (Hnu & _).
    apply (Hw j k t0 u0); [done | done | congruence].
Qed.

Lemma run_rows_at_rest op now w : rows_at_rest w → rows_at_rest (run op now w).
Proof.
  intros Hw. destruct op as [name path prio | i | tr]; simpl.
  - destruct (create_task_run name path prio now w)
      as [[_ Hrun] | (_ & _ & Ht & _)].
    + unfold exec. rewrite Hrun. done.
    + intros j t. rewrite Ht.
      destruct (decide (next_id w = j)) as [<-|Hj].
      * rewrite lookup_insert_eq. intros [= <-]. unfold row_at_rest. simpl.
        repeat split; try done. intros [?|?]; done.
      * rewrite lookup_insert_ne by done. apply Hw.
  - destruct (route_delete_run true i w) as [_ [Ht|Ht]];
      intros j t; rewrite Ht; [apply Hw |].
    intros Hj. apply lookup_delete_Some in Hj as [_ Hj]. by apply (Hw j).
  - destruct (apply_transition_updates rest_kept
                (RowStable0 := rest_kept_stable) tr now w) as [_ Hrows].
    intros j t Hj. specialize (Hrows j). rewrite Hj in Hrows.
    destruct (tasks w !! j) as [t0|] eqn:Hj0; [| done].
    apply Hrows. by apply (Hw j).
Qed.

Lemma history_of_snoc ops op now :
  history_of (ops ++ [(op, now)]) = run op now (history_of ops).
Proof. unfold history_of. by rewrite foldl_app. Qed.

Lemma history_induction (P : World → Prop) :
  P empty_world → (∀ op now w, P w → P (run op now w)) →
  ∀ ops, P (history_of ops).
Proof.
  intros Hempty Hrun ops. induction ops as [|[op now] ops IH] using rev_ind.
  - exact Hempty.
  - rewrite history_of_snoc. by apply Hrun.
Qed.

(** ** The task store *)

(** X1.  [create_task] for a movie that already has a row, in whatever
    status, raises [ValueError] and leaves the store, the folders and the
    key counter as they were. *)
Theorem create_task_rejects_known_movie path prio now w i t :
  tasks w !! i = Some t →
  db_manager.create_task (movie_name t) path prio now w
  = (Raised (ValueError ("Task for movie '" +:+ movie_name t
                         +:+ "' already exists")), w).
Proof.
  intros Hrow.
  destruct (create_task_run (movie_name t) path prio now w)
    as [[_ Hrun] | (Hfree & _)]; [exact Hrun |].
  assert (DatabaseManager.name_taken (movie_name t) w = true) as Htaken
    by (apply name_taken_spec; eauto).
  congruence.
Qed.

Lemma create_task_rejects_known_movie_witness :
  db_manager.create_task "Movie A" "/elsewhere" 9 700 movie_a_sent
  = (Raised (ValueError "Task for movie 'Movie A' already exists"),
     movie_a_sent).
Proof.
  exact (create_task_rejects_known_movie "/elsewhere" 9 700 movie_a_sent 1
           (mkTask "Movie A" "/raw/Movie A" SENT 5 0 100 110 None None None
              None None None None)
           ltac:(vm_compute; reflexivity)).
Defined.

(** X2.  A key is given once.  Whatever operations run, a task that
    [create_task] creates gets a key above the key of every row the store
    has held before, deleted rows included. *)
Theorem created_key_is_new ops1 ops2 name path prio now i j :
  is_Some (tasks (history_of ops1) !! i) →
  eval (db_manager.create_task name path prio now) (history_of (ops1 ++ ops2))
    = Ok j →
  i < j.
Proof.
  intros Hi Hj.
  assert (i < next_id (history_of ops1)) as Hlt.
  { revert i Hi. apply (history_induction ids_fresh).
    - intros i. unfold empty_world. simpl. rewrite lookup_empty.
      intros [? ?]. done.
    - intros op now' w. apply run_ids_fresh. }
  assert (next_id (history_of ops1) ≤ next_id (history_of (ops1 ++ ops2)))
    as Hle.
  { unfold history_of. rewrite foldl_app. apply run_all_next_id. }
  destruct (create_task_run name path prio now (history_of (ops1 ++ ops2)))
    as [[_ Hrun] | (_ & Hret & _)].
  - unfold eval in Hj. rewrite Hrun in Hj. done.
  - rewrite Hret in Hj. injection Hj as <-. lia.
Qed.

Lemma created_key_is_new_witness :
  1 < 2.
Proof.
  apply (created_key_is_new
           [(Create "Movie A" "/raw/Movie A" 5, 100)]
           [(Delete 1, 150)] "Movie A" "/raw/Movie A" 5 200 1 2).
  - vm_compute. eauto.
  - vm_compute. reflexivity.
Defined.

(** X3.  The [UNIQUE] constraint on [movie_name] holds after every history
    of creations, deletes and lifecycle transitions: no two rows name the
    same movie. *)
Theorem movie_names_stay_unique ops : names_unique (history_of ops).
Proof.
  apply (history_induction names_unique).
  - intros i j t u. unfold empty_world. simpl. by rewrite lookup_empty.
  - intros op now w. apply run_names_unique.
Qed.

(** X4.  Between operations every row is at rest: [attempts] is not
    negative, no row is left in the passing status [retrying], a row that
    is [processing] has [processing_started_at] and a row that is
    [completed] or [failed] has [processing_completed_at]. *)
Theorem rows_rest_between_operations ops : rows_at_rest (history_of ops).
Proof.
  apply (history_induction rows_at_rest).
  - intros i t. unfold empty_world. simpl. by rewrite lookup_empty.
  - intros op now w. apply run_rows_at_rest.
Qed.

(** X5.  No lifecycle transition (dispatcher cycle, retry of failed tasks,
    status callback, shutdown notification, restart) adds or removes a row
    or moves the key counter, and none writes [movie_name], [source_path],
    [priority] or [created_at]. *)
Theorem transition_keeps_identity tr now w :
  dom (tasks (apply_transition tr now w)) = dom (tasks w)
  ∧ next_id (apply_transition tr now w) = next_id w
  ∧ ∀ i t, tasks w !! i = Some t →
      ∃ t', tasks (apply_transition tr now w) !! i = Some t'
            ∧ same_identity t t'.
Proof.
  destruct (apply_transition_updates same_identity
              (RowStable0 := same_identity_stable) tr now w) as [Hn Hrows].
  split; [| split; [exact Hn |]].
  - apply set_eq. intros i. rewrite !elem_of_dom. specialize (Hrows i).
    destruct (tasks w !! i), (tasks (apply_transition tr now w) !! i);
      simpl in Hrows; try done; split; intros [? ?]; try done; eauto.
  - intros i t Hrow. specialize (Hrows i). rewrite Hrow in Hrows.
    destruct (tasks (apply_transition tr now w) !! i) as [t'|]; [| done].
    eauto.
Qed.

(** *** The queries *)

Lemma pending_order_total : Total DatabaseManager.pending_order.
Proof. intros a b. unfold DatabaseManager.pending_order. lia. Qed.

Lemma pending_order_trans : Transitive DatabaseManager.pending_order.
Proof. intros a b c. unfold DatabaseManager.pending_order. lia. Qed.

Lemma listing_order_total : Total DatabaseManager.listing_order.
Proof. intros a b. unfold DatabaseManager.listing_order. lia. Qed.

Lemma listing_order_trans : Transitive DatabaseManager.listing_order.
Proof. intros a b c. unfold DatabaseManager.listing_order. lia. Qed.

(** The pending rows in the order of the query, before the limit. *)
Lemma pending_queue_elem w i t :
  (i, t) ∈ selected 0 w ↔ tasks w !! i = Some t ∧ status t = PENDING.
Proof.
  unfold selected, DatabaseManager.apply_limit.
  rewrite bool_decide_eq_false_2 by lia.
  rewrite merge_sort_Permutation, list_elem_of_filter, elem_of_map_to_list.
  simpl. tauto.
Qed.

Lemma selected_prefix limit w :
  selected limit w
  = DatabaseManager.apply_limit limit (selected 0 w).
Proof.
  unfold selected at 2. unfold DatabaseManager.apply_limit at 2.
  rewrite bool_decide_eq_false_2 by lia. reflexivity.
Qed.

(** X6.  [get_pending_tasks] reads only.  Its result lists rows that are
    [pending], each once, highest priority first and oldest first within a
    priority; a limit that is not positive lists them all; a positive limit
    lists that many of them or all (whichever is fewer), and every pending
    row it leaves out comes after every row it lists. *)
Theorem pending_queue_is_ordered limit w :
  db_manager.get_pending_tasks limit w = (Ok (selected limit w), w)
  ∧ StronglySorted DatabaseManager.pending_order (selected limit w)
  ∧ NoDup (selected limit w).*1
  ∧ (∀ i t, (i, t) ∈ selected limit w →
       tasks w !! i = Some t ∧ status t = PENDING)
  ∧ (limit ≤ 0 → ∀ i t, tasks w !! i = Some t → status t = PENDING →
       (i, t) ∈ selected limit w)
  ∧ (0 < limit →
     length (selected limit w)
       = (Z.to_nat limit `min` length (selected 0 w))%nat
     ∧ ∀ i t r, tasks w !! i = Some t → status t = PENDING →
         (i, t) ∉ selected limit w → r ∈ selected limit w →
         DatabaseManager.pending_order r (i, t)).
Proof.
  assert (StronglySorted DatabaseManager.pending_order (selected 0 w))
    as Hsorted.
  { unfold selected, DatabaseManager.apply_limit.
    rewrite bool_decide_eq_false_2 by lia.
    apply (StronglySorted_merge_sort _ (Transitive0 := pending_order_trans)
             (Total0 := pending_order_total)). }
  split; [reflexivity |].
  split.
  { rewrite selected_prefix. unfold DatabaseManager.apply_limit.
    case_bool_decide; [| done].
    rewrite <- (take_drop (Z.to_nat limit) (selected 0 w)) in Hsorted.
    by apply StronglySorted_app_1_l in Hsorted. }
  split; [apply selected_NoDup |].
  split; [intros i t; apply selected_elem |].
  split.
  - intros Hlimit i t Hrow Hst. rewrite selected_prefix.
    unfold DatabaseManager.apply_limit.
    rewrite bool_decide_eq_false_2 by lia. by apply pending_queue_elem.
  - intros Hlimit. rewrite selected_prefix.
    unfold DatabaseManager.apply_limit.
    rewrite bool_decide_eq_true_2 by done.
    split; [apply length_take |].
    intros i t r Hrow Hst Hout Hr.
    assert ((i, t) ∈ selected 0 w) as Hin by by apply pending_queue_elem.
    rewrite <- (take_drop (Z.to_nat limit) (selected 0 w)) in Hin, Hsorted.
    apply elem_of_app in Hin as [Hin|Hin]; [done |].
    by eapply StronglySorted_app_1_elem_of.
Qed.

(** X7.  [get_all_tasks] reads only and lists every row of the table
    exactly once, highest priority first and newest first within a
    priority. *)
Theorem listing_is_complete_and_ordered w :
  ∃ l, db_manager.get_all_tasks w = (Ok l, w)
    ∧ StronglySorted DatabaseManager.listing_order l
    ∧ NoDup l.*1
    ∧ ∀ i t, (i, t) ∈ l ↔ tasks w !! i = Some t.
Proof.
  eexists. split; [reflexivity |]. split; [| split].
  - apply (StronglySorted_merge_sort _ (Transitive0 := listing_order_trans)
             (Total0 := listing_order_total)).
  - rewrite merge_sort_Permutation. apply NoDup_fst_map_to_list.
  - intros i t. rewrite merge_sort_Permutation. apply elem_of_map_to_list.
Qed.


(** ** The dispatcher's client and its cycle *)





Lemma dispatch_one_eval mc task_data now w :
  eval (WatcherService.dispatch_one mc task_data now) w
  = Ok (mac_client.send_task mc (to_processing_task task_data)).
Proof.
  unfold WatcherService.dispatch_one, WatcherService.mark_sent,
    WatcherService.after_send, db_manager.update_task_status,
    DatabaseManager.update_task_status_full,
    db_manager.increment_task_attempts, to_processing_task, eval.
  unfold mbind, M_bind, mret, M_ret. simpl.
  rewrite update_row_run.
  destruct (mac_client.send_task mc _); rewrite ?update_row_run; simpl; done.
Qed.


Lemma dispatch_all_eval mc l now n w :
  eval (WatcherService.dispatch_all mc l now n) w
  = Ok (n + Z.of_nat (length (accepted mc l))).
Proof.
  revert n w. induction l as [|task_data l IH]; intros n w; simpl.
  { unfold eval, mret, M_ret. simpl. f_equal. lia. }
  pose proof (dispatch_one_eval mc task_data now w) as Hone.
  unfold eval, mbind, M_bind in *.
  destruct (WatcherService.dispatch_one mc task_data now w) as [r w1].
  simpl in Hone. subst r. rewrite IH. unfold accepted.
  rewrite filter_cons.
  destruct (mac_client.send_task mc (to_processing_task task_data));
    case_decide; try done; simpl; f_equal; lia.
Qed.

(** X10.  A dispatcher cycle returns the number of the tasks it selected
    that the worker accepted: a task whose delivery fails is not counted. *)
Theorem dispatch_counts_accepted_tasks limit mc now w :
  eval (WatcherService.process_pending_tasks limit mc now) w
  = Ok (Z.of_nat (length (accepted mc (selected limit w)))).
Proof.
  unfold WatcherService.process_pending_tasks, eval, mbind, M_bind.
  rewrite get_pending_tasks_run.
  pose proof (dispatch_all_eval mc (selected limit w) now 0 w) as Hall.
  unfold eval in Hall. rewrite Hall. f_equal.
Qed.


Lemma retry_one_run task_data now w :
  ∃ w1, WatcherService.retry_one task_data now w = (Ok (), w1)
    ∧ ∀ j, tasks w1 !! j
           = if decide (task_data.1 = j) then retried now <$> tasks w !! j
             else tasks w !! j.
Proof.
  unfold WatcherService.retry_one. unfold_io. rewrite !update_row_run.
  eexists. split; [reflexivity |]. intros j. simpl.
  destruct (decide (task_data.1 = j)) as [->|Hne].
  - rewrite !lookup_alter_eq. by destruct (tasks w !! _).
  - by rewrite !lookup_alter_ne.
Qed.

Lemma retry_all_run l now n w :
  NoDup l.*1 →
  ∃ w', WatcherService.retry_all l now n w = (Ok (n + Z.of_nat (length l)), w')
    ∧ ∀ j, tasks w' !! j
           = if decide (j ∈ l.*1) then retried now <$> tasks w !! j
             else tasks w !! j.
Proof.
  revert n w. induction l as [|task_data l IH]; intros n w Hnd.
  { exists w. split; [simpl; unfold mret, M_ret; do 2 f_equal; lia |].
    intros j. rewrite decide_False; [done | apply not_elem_of_nil]. }
  rewrite fmap_cons in Hnd. apply NoDup_cons in Hnd as [Hfresh Hnd].
  destruct (retry_one_run task_data now w) as (w1 & Hone & Hrows1).
  destruct (IH (n + 1) w1 Hnd) as (w' & Hall & Hrows).
  exists w'. split.
  - simpl. unfold mbind, M_bind. rewrite Hone, Hall. do 2 f_equal. lia.
  - intros j. rewrite Hrows, Hrows1, fmap_cons.
    destruct (decide (task_data.1 = j)) as [<-|Hne].
    + rewrite decide_False by done.
      rewrite decide_True by (apply elem_of_cons; auto). done.
    + destruct (decide (j ∈ l.*1)) as [Hin|Hout].
      * rewrite decide_True by (apply elem_of_cons; auto). done.
      * rewrite decide_False; [done |].
        intros [?|?]%elem_of_cons; congruence.
Qed.

Lemma retriable_elem max_attempts w i :
  i ∈ (retriable max_attempts w).*1
  ↔ ∃ t, tasks w !! i = Some t ∧ status t = FAILED
         ∧ attempts t < max_attempts.
Proof.
  unfold retriable. rewrite list_elem_of_fmap. split.
  - intros ([j t] & -> & Hin). simpl.
    apply list_elem_of_filter in Hin as [Hst Hin].
    rewrite merge_sort_Permutation in Hin.
    apply elem_of_map_to_list in Hin. simpl in Hst. exists t. tauto.
  - intros (t & Hrow & Hst & Hlt). exists (i, t). split; [done |].
    apply list_elem_of_filter. split; [done |].
    rewrite merge_sort_Permutation. by apply elem_of_map_to_list.
Qed.

Lemma retriable_NoDup max_attempts w : NoDup (retriable max_attempts w).*1.
Proof.
  unfold retriable.
  eapply sublist_NoDup; [| apply fmap_sublist, sublist_filter].
  rewrite merge_sort_Permutation. apply NoDup_fst_map_to_list.
Qed.

(** X11.  The watcher's retry returns every [failed] task whose attempts
    are below the maximum to [pending] and raises its [attempts] by 2: the
    update to [retrying] counts one attempt and
    [increment_task_attempts] another.  Every other row is left as it is,
    and the result is the number of tasks retried. *)
Theorem retry_requeues_failed_tasks max_attempts now w i t :
  tasks w !! i = Some t →
  let w' := exec (WatcherService.retry_failed_tasks max_attempts now) w in
  eval (WatcherService.retry_failed_tasks max_attempts now) w
    = Ok (Z.of_nat (length (retriable max_attempts w)))
  ∧ (status t = FAILED ∧ attempts t < max_attempts →
     ∃ t', tasks w' !! i = Some t'
           ∧ status t' = PENDING
           ∧ attempts t' = attempts t + 2
           ∧ updated_at t' = now
           ∧ same_identity t t')
  ∧ (¬ (status t = FAILED ∧ attempts t < max_attempts) →
     tasks w' !! i = Some t).
Proof.
  intros Hrow.
  destruct (retry_all_run (retriable max_attempts w) now 0 w
              (retriable_NoDup max_attempts w)) as (w' & Hall & Hrows).
  assert (WatcherService.retry_failed_tasks max_attempts now w
          = (Ok (Z.of_nat (length (retriable max_attempts w))), w')) as Hrun.
  { unfold WatcherService.retry_failed_tasks,
      db_manager.get_failed_tasks_for_retry, mbind, M_bind.
    fold (retriable max_attempts w). rewrite Hall. do 2 f_equal. }
  unfold eval, exec. rewrite Hrun. simpl.
  split; [done |]. rewrite Hrows, Hrow. split.
  - intros Hst. rewrite decide_True by (apply retriable_elem; eauto).
    eexists. split; [reflexivity |]. simpl. repeat split; lia.
  - intros Hst. rewrite decide_False; [done |].
    intros (t0 & Hrow0 & Hst0)%retriable_elem. rewrite Hrow in Hrow0.
    injection Hrow0 as <-. done.
Qed.

(** X11, on "Movie A" after its second failure, with a maximum of 5. *)
Lemma retry_requeues_failed_tasks_witness :
  let w' := exec (WatcherService.retry_failed_tasks 5 900)
              movie_a_failed_twice in
  eval (WatcherService.retry_failed_tasks 5 900) movie_a_failed_twice
    = Ok (Z.of_nat (length (retriable 5 movie_a_failed_twice)))
  ∧ (FAILED = FAILED ∧ 3 < 5 →
     ∃ t', tasks w' !! 1 = Some t'
           ∧ status t' = PENDING
           ∧ attempts t' = 3 + 2
           ∧ updated_at t' = 900
           ∧ same_identity
               (mkTask "Movie A" "/raw/Movie A" FAILED 5 3 100 400 (Some 200)
                  (Some 400) (Some "Unknown error") None None None None) t')
  ∧ (¬ (FAILED = FAILED ∧ 3 < 5) →
     tasks w' !! 1
     = Some (mkTask "Movie A" "/raw/Movie A" FAILED 5 3 100 400 (Some 200)
               (Some 400) (Some "Unknown error") None None None None)).
Proof.
  exact (retry_requeues_failed_tasks 5 900 movie_a_failed_twice 1
           (mkTask "Movie A" "/raw/Movie A" FAILED 5 3 100 400 (Some 200)
              (Some 400) (Some "Unknown error") None None None None)
           ltac:(vm_compute; reflexivity)).
Defined.

(** ** The relocation *)


(** ** The receiver *)



(** X14.  The receiver refuses a status update with 503 while the database
    is not set, with 404 for a task it does not know, and with 400 for a
    status other than [processing], [completed] and [failed] ([pending],
    [sent] and [retrying] among them); a refused update changes nothing. *)
Theorem receiver_rejects_without_effect g update now w :
  (db_available g = false →
   webhook.receive_status_update g update now w
   = (Raised (HTTPException 503 "Database not available"), w))
  ∧ (db_available g = true → tasks w !! u_task_id update = None →
     webhook.receive_status_update g update now w
     = (Raised (HTTPException 404
                  ("Task " +:+ pretty (u_task_id update) +:+ " not found")),
        w))
  ∧ (db_available g = true → is_Some (tasks w !! u_task_id update) →
     u_status update ∉ [value PROCESSING; value COMPLETED; value FAILED] →
     webhook.receive_status_update g update now w
     = (Raised (HTTPException 400 ("Unknown status: " +:+ u_status update)),
        w)).
Proof.
  unfold webhook.receive_status_update. unfold_io.
  split; [| split].
  - intros ->. reflexivity.
  - intros -> Hrow. simpl. rewrite Hrow. reflexivity.
  - intros -> [t Hrow] Hst. simpl. rewrite Hrow. simpl.
    rewrite !not_elem_of_cons in Hst. destruct Hst as (H1 & H2 & H3 & _).
    rewrite !bool_decide_eq_false_2 by done. reflexivity.
Qed.

(** X15.  A [completed] callback for a known task is answered with success
    before the relocation runs, whatever the relocation then does: when the
    file it names is not in the temp folder the sender is told of success
    and the task ends [failed]. *)
Theorem completed_callback_acknowledged_unconditionally g update now w t :
  db_available g = true →
  tasks w !! u_task_id update = Some t →
  u_status update = value COMPLETED →
  eval (webhook.receive_status_update g update now) w
    = Ok (mkWebhookResponse true
            ("Status update processed for task "
             +:+ pretty (u_task_id update)))
  ∧ (∀ fm, the_file_manager g = Some fm → mock_mode fm = false →
       truthy (u_temp_file update) = true →
       default "" (u_temp_file update) ∉ temp_files w →
       status <$> tasks (exec (webhook.receive_status_update g update now) w)
                    !! u_task_id update
       = Some FAILED).
Proof.
  intros Hdb Hrow Hst. split.
  - unfold eval, webhook.receive_status_update, webhook.add_task. unfold_io.
    rewrite Hdb. simpl. rewrite Hrow, Hst. reflexivity.
  - intros fm Hfm Hmock Htemp Hgone.
    rewrite (receive_completed_run g update now w t) by done.
    destruct (completion_effect g fm t update now w t Hfm Htemp Hrow)
      as (_ & Hstatus & _).
    rewrite Hstatus, Hmock. simpl.
    by rewrite bool_decide_eq_false_2.
Qed.

(** X15, on a [completed] callback for "Movie A" with an empty temp
    folder. *)
Lemma completed_callback_acknowledged_unconditionally_witness :
  eval (webhook.receive_status_update nas (completed_callback 1) 500)
    movie_a_sent
    = Ok (mkWebhookResponse true "Status update processed for task 1")
  ∧ (∀ fm, the_file_manager nas = Some fm → mock_mode fm = false →
       truthy (Some "x.mkv") = true →
       default "" (Some "x.mkv") ∉ temp_files movie_a_sent →
       status <$> tasks (exec (webhook.receive_status_update nas
                                 (completed_callback 1) 500) movie_a_sent)
                    !! 1
       = Some FAILED).
Proof.
  exact (completed_callback_acknowledged_unconditionally nas
           (completed_callback 1) 500 movie_a_sent
           (mkTask "Movie A" "/raw/Movie A" SENT 5 0 100 110 None None None
              None None None None)
           eq_refl ltac:(vm_compute; reflexivity) eq_refl).
Defined.

(** ** The restart *)

(** X16.  The restart of a known task is refused with 400, and nothing
    changes, unless the task is [completed] or [failed]; otherwise the task
    is [pending] with [attempts] 0, and the restart clears nothing else:
    the error message, the two processing timestamps and the progress of
    the earlier run stay on the row. *)
Theorem restart_refuses_or_requeues i now w t :
  tasks w !! i = Some t →
  (status t ≠ COMPLETED → status t ≠ FAILED →
   routes.restart_task true i now w
   = (Raised (HTTPException 400
                ("Cannot restart task in status: " +:+ value (status t))),
      w))
  ∧ (status t = COMPLETED ∨ status t = FAILED →
     eval (routes.restart_task true i now) w
       = Ok (mkTaskActionResponse true
               ("Task " +:+ pretty i +:+ " restarted successfully") (Some i))
     ∧ ∃ t', tasks (exec (routes.restart_task true i now) w) !! i = Some t'
         ∧ status t' = PENDING ∧ attempts t' = 0 ∧ updated_at t' = now
         ∧ same_identity t t'
         ∧ error_message t' = error_message t
         ∧ processing_started_at t' = processing_started_at t
         ∧ processing_completed_at t' = processing_completed_at t
         ∧ progress_percent t' = progress_percent t).
Proof.
  intros Hrow. split.
  - intros Hc Hf. unfold routes.restart_task. unfold_io. simpl.
    rewrite Hrow.
    rewrite bool_decide_eq_true_2; [reflexivity |].
    intros [?|?]%restartable_value; done.
  - intros Hst. split.
    + unfold eval, routes.restart_task. unfold_io. simpl. rewrite Hrow.
      rewrite bool_decide_eq_false_2
        by (intros Hnot; apply Hnot; by apply restartable_value).
      rewrite !update_row_run. reflexivity.
    + rewrite (restart_effect i now w i t Hrow).
      rewrite decide_True by done.
      eexists. split; [reflexivity |]. simpl. done.
Qed.

(** X16, on "Movie A" after its second failure. *)
Lemma restart_refuses_or_requeues_witness :
  let t := mkTask "Movie A" "/raw/Movie A" FAILED 5 3 100 400 (Some 200)
             (Some 400) (Some "Unknown error") None None None None in
  (FAILED ≠ COMPLETED → FAILED ≠ FAILED →
   routes.restart_task true 1 900 movie_a_failed_twice
   = (Raised (HTTPException 400 "Cannot restart task in status: failed"),
      movie_a_failed_twice))
  ∧ (FAILED = COMPLETED ∨ FAILED = FAILED →
     eval (routes.restart_task true 1 900) movie_a_failed_twice
       = Ok (mkTaskActionResponse true "Task 1 restarted successfully"
               (Some 1))
     ∧ ∃ t', tasks (exec (routes.restart_task true 1 900)
                      movie_a_failed_twice) !! 1 = Some t'
         ∧ status t' = PENDING ∧ attempts t' = 0 ∧ updated_at t' = 900
         ∧ same_identity t t'
         ∧ error_message t' = Some "Unknown error"
         ∧ processing_started_at t' = Some 200
         ∧ processing_completed_at t' = Some 400
         ∧ progress_percent t' = None).
Proof.
  exact (restart_refuses_or_requeues 1 900 movie_a_failed_twice
           (mkTask "Movie A" "/raw/Movie A" FAILED 5 3 100 400 (Some 200)
              (Some 400) (Some "Unknown error") None None None None)
           ltac:(vm_compute; reflexivity)).
Defined.


(** ** The scanner *)

Lemma is_movie_already_processed_run max_attempts movie w :
  scanner.is_movie_already_processed max_attempts movie w
  = (Ok (default (output_exists movie w)
           (scanner.task_decides movie max_attempts
              (merge_sort DatabaseManager.listing_order
                 (map_to_list (tasks w))))), w).
Proof.
  unfold scanner.is_movie_already_processed, db_manager.get_all_tasks,
    DatabaseManager.get_all_tasks, mbind, M_bind.
  by destruct (scanner.task_decides _ _ _).
Qed.

Lemma task_decides_Some movie max_attempts l b :
  scanner.task_decides movie max_attempts l = Some b →
  ∃ r, r ∈ l ∧ movie_name r.2 = movie.
Proof.
  induction l as [|r l IH]; simpl; [done |].
  case_bool_decide as Hname.
  - intros _. exists r. split; [apply elem_of_cons; auto | done].
  - intros (r' & Hin & Hr')%IH. exists r'.
    split; [apply elem_of_cons; auto | done].
Qed.

Lemma task_decides_None movie max_attempts l :
  (∀ r, r ∈ l → movie_name r.2 ≠ movie) →
  scanner.task_decides movie max_attempts l = None.
Proof.
  induction l as [|r l IH]; intros Hl; simpl; [done |].
  rewrite bool_decide_eq_false_2 by (apply Hl, elem_of_cons; auto).
  apply IH. intros r' Hin. apply Hl, elem_of_cons. auto.
Qed.

Lemma task_decides_row movie max_attempts l r :
  r ∈ l → movie_name r.2 = movie →
  (∀ r', r' ∈ l → movie_name r'.2 = movie → r' = r) →
  scanner.task_decides movie max_attempts l
  = scanner.task_decides movie max_attempts [r].
Proof.
  intros Hin Hname Honly. induction l as [|r0 l IH]; [by apply elem_of_nil in Hin |].
  simpl. rewrite Hname. rewrite (bool_decide_eq_true_2 (movie = movie)) by done.
  destruct (decide (movie_name r0.2 = movie)) as [Hr0|Hr0].
  - assert (r0 = r) as -> by (apply Honly; [apply elem_of_cons; auto | done]).
    rewrite Hname, (bool_decide_eq_true_2 (movie = movie)) by done.
    destruct (bool_decide (status r.2 ∈ [COMPLETED; PROCESSING; SENT]))
      eqn:Hdone; [done |].
    destruct (bool_decide (status r.2 = FAILED)) eqn:Hfailed; [done |].
    destruct (decide (Exists (λ r', movie_name r'.2 = movie) l)) as [Hl|Hl].
    + apply Exists_exists in Hl as (r' & Hr' & Hname').
      assert (r' = r) as ->
        by (apply Honly; [apply elem_of_cons; auto | done]).
      rewrite IH; [| done |].
      * simpl. rewrite Hname, (bool_decide_eq_true_2 (movie = movie)) by done.
        by rewrite Hdone, Hfailed.
      * intros r0 Hr0in. apply Honly, elem_of_cons. auto.
    + apply task_decides_None. intros r' Hr' Hname'.
      apply Hl, Exists_exists. eauto.
  - rewrite bool_decide_eq_false_2 by done.
    apply elem_of_cons in Hin as [-> | Hin]; [done |].
    rewrite IH; [| done |].
    + simpl. by rewrite Hname, (bool_decide_eq_true_2 (movie = movie)).
    + intros r' Hr'. apply Honly, elem_of_cons. auto.
Qed.

(** X17.  [is_movie_already_processed] reads only.  With no two rows of
    one name, it turns on the movie's row alone: a movie whose task is
    [completed], [processing] or [sent] is skipped; one whose task is
    [failed] is skipped once its attempts reach the maximum; one whose task
    is [pending], like one with no task, is skipped only when its output
    file is in the processed folder. *)
Theorem scanner_decides_by_the_movie_row max_attempts movie w :
  names_unique w →
  exec (scanner.is_movie_already_processed max_attempts movie) w = w
  ∧ (∀ i t, tasks w !! i = Some t → movie_name t = movie →
       eval (scanner.is_movie_already_processed max_attempts movie) w
       = Ok (match status t with
             | COMPLETED | PROCESSING | SENT => true
             | FAILED => bool_decide (max_attempts ≤ attempts t)
             | PENDING | RETRYING => output_exists movie w
             end))
  ∧ ((∀ i t, tasks w !! i = Some t → movie_name t ≠ movie) →
     eval (scanner.is_movie_already_processed max_attempts movie) w
     = Ok (output_exists movie w)).
Proof.
  intros Hunique. unfold exec, eval.
  rewrite is_movie_already_processed_run. simpl.
  split; [done |]. split.
  - intros i t Hrow Hname.
    rewrite (task_decides_row _ _ _ (i, t)).
    + simpl. rewrite bool_decide_eq_true_2 by done. by destruct (status t).
    + rewrite merge_sort_Permutation. by apply elem_of_map_to_list.
    + done.
    + intros [j u]. rewrite merge_sort_Permutation.
      intros Hin%elem_of_map_to_list Hname'. simpl in *.
      assert (j = i) as -> by (eapply Hunique; [done | done | congruence]).
      congruence.
  - intros Hnone. rewrite task_decides_None; [done |].
    intros [j u]. rewrite merge_sort_Permutation.
    intros Hin%elem_of_map_to_list. simpl. by eapply Hnone.
Qed.


Lemma scan_items_run raw_path max_attempts items w :
  ∃ l, BluRayScanner.scan_items raw_path max_attempts items w = (Ok l, w)
    ∧ ∀ m, m ∈ l ↔
        ∃ item, item ∈ items
          ∧ entry_is_dir item = true
          ∧ BluRayScanner.is_hidden (entry_name item) = false
          ∧ entry_is_bluray item = true
          ∧ eval (scanner.is_movie_already_processed max_attempts
                    (entry_name item)) w = Ok false
          ∧ m = mkMovieInfo (entry_name item)
                  (raw_path +:+ "/" +:+ entry_name item)
                  (entry_size_bytes item).
Proof.
  induction items as [|item items (l & Hrun & Hl)]; simpl.
  { exists []. split; [done |]. intros m. split; [by intros ?%elem_of_nil |].
    intros (item & Hin & _). by apply elem_of_nil in Hin. }
  assert (∀ m, (∃ item0, item0 ∈ items
                  ∧ entry_is_dir item0 = true
                  ∧ BluRayScanner.is_hidden (entry_name item0) = false
                  ∧ entry_is_bluray item0 = true
                  ∧ eval (scanner.is_movie_already_processed max_attempts
                            (entry_name item0)) w = Ok false
                  ∧ m = mkMovieInfo (entry_name item0)
                          (raw_path +:+ "/" +:+ entry_name item0)
                          (entry_size_bytes item0))
               → ∃ item0, item0 ∈ item :: items
                  ∧ entry_is_dir item0 = true
                  ∧ BluRayScanner.is_hidden (entry_name item0) = false
                  ∧ entry_is_bluray item0 = true
                  ∧ eval (scanner.is_movie_already_processed max_attempts
                            (entry_name item0)) w = Ok false
                  ∧ m = mkMovieInfo (entry_name item0)
                          (raw_path +:+ "/" +:+ entry_name item0)
                          (entry_size_bytes item0)) as Hweak.
  { intros m (item0 & Hin & Hrest). exists item0.
    split; [apply elem_of_cons; auto | done]. }
  destruct (entry_is_dir item) eqn:Hdir; simpl.
  2: { exists l. split; [done |]. intros m. rewrite Hl. split; [apply Hweak |].
       intros (item0 & [-> | Hin]%elem_of_cons & Hd & Hrest);
         [congruence | eauto 10]. }
  destruct (BluRayScanner.is_hidden (entry_name item)) eqn:Hhid; simpl.
  { exists l. split; [done |]. intros m. rewrite Hl. split; [apply Hweak |].
    intros (item0 & [-> | Hin]%elem_of_cons & Hd & Hh & Hrest);
      [congruence | eauto 10]. }
  destruct (entry_is_bluray item) eqn:Hblu; simpl.
  2: { exists l. split; [done |]. intros m. rewrite Hl. split; [apply Hweak |].
       intros (item0 & [-> | Hin]%elem_of_cons & Hd & Hh & Hb & Hrest);
         [congruence | eauto 10]. }
  unfold mbind, M_bind. rewrite is_movie_already_processed_run.
  pose proof (is_movie_already_processed_run max_attempts (entry_name item) w)
    as Hskip.
  destruct (default _ _) eqn:Hdecision.
  - exists l. split; [done |]. intros m. rewrite Hl. split; [apply Hweak |].
    intros (item0 & [-> | Hin]%elem_of_cons & Hd & Hh & Hb & Hp & Hm);
      [| eauto 10].
    unfold eval in Hp. rewrite Hskip in Hp. simpl in Hp. congruence.
  - rewrite Hrun. eexists. split; [reflexivity |]. intros m.
    rewrite elem_of_cons, Hl. split.
    + intros [-> | Hm]; [| by apply Hweak].
      exists item. split; [apply elem_of_cons; auto |].
      unfold eval. rewrite Hskip. done.
    + intros (item0 & [-> | Hin]%elem_of_cons & Hrest).
      * left. by destruct Hrest as (_ & _ & _ & _ & ->).
      * right. eauto 10.
Qed.

Lemma create_one_run dry_run movie now w :
  ids_fresh w →
  ∃ created w',
    BluRayScanner.create_one dry_run movie now w = (Ok created, w')
    ∧ ids_fresh w'
    ∧ same_surroundings w w'
    ∧ (created = true → dry_run = false →
       DatabaseManager.name_taken (info_name movie) w = false
       ∧ tasks w' = <[next_id w := scanned_row movie now]> (tasks w)
       ∧ next_id w' = next_id w + 1)
    ∧ (created = false ∨ dry_run = true → w' = w)
    ∧ (created = false →
       DatabaseManager.name_taken (info_name movie) w = true).
Proof.
  intros Hfresh. unfold BluRayScanner.create_one.
  destruct dry_run.
  { exists true, w. unfold try_except. simpl.
    repeat split; done. }
  unfold try_except, mbind, M_bind.
  destruct (create_task_run (info_name movie) (info_path movie)
              (BluRayScanner.size_priority (info_size_bytes movie)) now w)
    as [[Htaken Hrun] | (Hfree & Hret & Ht & Hn)].
  - rewrite Hrun. exists false, w. repeat split; try done.
  - pose proof (run_ids_fresh
                  (Create (info_name movie) (info_path movie)
                     (BluRayScanner.size_priority (info_size_bytes movie)))
                  now w Hfresh) as Hfresh'.
    simpl in Hfresh'. unfold eval, exec in *.
    destruct (db_manager.create_task _ _ _ _ w) as [r w'] eqn:Hrun.
    simpl in *. subst r. exists true, w'.
    split; [done |]. split; [done |]. split.
    { unfold db_manager.create_task, DatabaseManager.create_task in Hrun.
      rewrite Hfree in Hrun. injection Hrun as <-. by repeat split. }
    split; [done |]. split; [intros [?|?]; done | done].
Qed.

Lemma name_taken_mono name w w' :
  tasks w ⊆ tasks w' →
  DatabaseManager.name_taken name w = true →
  DatabaseManager.name_taken name w' = true.
Proof.
  intros Hsub (i & t & Hrow & Hname)%name_taken_spec.
  apply name_taken_spec. exists i, t. split; [| done].
  by eapply lookup_weaken.
Qed.

Lemma same_surroundings_refl w : same_surroundings w w.
Proof. by repeat split. Qed.

Lemma same_surroundings_trans w1 w2 w3 :
  same_surroundings w1 w2 → same_surroundings w2 w3 →
  same_surroundings w1 w3.
Proof.
  unfold same_surroundings.
  intros (? & ? & ? & ? & ? & ? & ?) (? & ? & ? & ? & ? & ? & ?).
  repeat split; congruence.
Qed.

Lemma create_all_run dry_run movies now n w :
  ids_fresh w →
  ∃ k w',
    BluRayScanner.create_all dry_run movies now n w = (Ok (n + k), w')
    ∧ ids_fresh w'
    ∧ same_surroundings w w'
    ∧ 0 ≤ k ≤ Z.of_nat (length movies)
    ∧ next_id w' = next_id w + (if dry_run then 0 else k)
    ∧ tasks w ⊆ tasks w'
    ∧ (dry_run = true → w' = w ∧ k = Z.of_nat (length movies))
    ∧ (dry_run = false →
       ∀ m, m ∈ movies → DatabaseManager.name_taken (info_name m) w' = true)
    ∧ (∀ j u, tasks w' !! j = Some u → tasks w !! j = None →
         next_id w ≤ j < next_id w'
         ∧ ∃ m, m ∈ movies ∧ u = scanned_row m now)
    ∧ (dry_run = false →
       (∀ m, m ∈ movies → DatabaseManager.name_taken (info_name m) w = true) →
       w' = w ∧ k = 0).
Proof.
  revert n w. induction movies as [|movie movies IH]; intros n w Hfresh.
  { exists 0, w. simpl. unfold mret, M_ret.
    split; [by rewrite Z.add_0_r |]. split; [done |].
    split; [apply same_surroundings_refl |]. split; [lia |].
    split; [destruct dry_run; lia |]. split; [done |].
    split; [done |]. split; [intros _ m Hm; by apply elem_of_nil in Hm |].
    split; [| done]. intros j u Hj Hnone. congruence. }
  destruct (create_one_run dry_run movie now w Hfresh)
    as (created & w1 & Hone & Hfresh1 & Hsur1 & Hnew & Hsame & Hold).
  destruct (IH (if created then n + 1 else n) w1 Hfresh1)
    as (k & w' & Hall & Hfresh' & Hsur & Hk & Hn & Hsub & Hdry & Htaken
        & Hrows & Hnothing).
  assert (next_id w1 = next_id w + (if dry_run then 0
                                    else if created then 1 else 0)
          ∧ tasks w ⊆ tasks w1
          ∧ (∀ j u, tasks w1 !! j = Some u → tasks w !! j = None →
               j = next_id w ∧ u = scanned_row movie now
               ∧ created = true ∧ dry_run = false)) as (Hn1 & Hsub1 & Hrows1).
  { destruct created, dry_run.
    - rewrite (Hsame (or_intror eq_refl)).
      split; [lia |]. split; [done |]. congruence.
    - destruct (Hnew eq_refl eq_refl) as (_ & Ht & Hnext).
      assert (tasks w !! next_id w = None) as Hfree.
      { destruct (tasks w !! next_id w) eqn:Hrow; [| done].
        assert (next_id w < next_id w) by (apply Hfresh; eauto). lia. }
      split; [lia |]. split; [rewrite Ht; by apply insert_subseteq |].
      intros j u. rewrite Ht. intros Hj Hnone.
      destruct (decide (next_id w = j)) as [<-|Hne].
      + rewrite lookup_insert_eq in Hj. by injection Hj as <-.
      + rewrite lookup_insert_ne in Hj by done. congruence.
    - rewrite (Hsame (or_intror eq_refl)).
      split; [lia |]. split; [done |]. congruence.
    - rewrite (Hsame (or_introl eq_refl)).
      split; [lia |]. split; [done |]. congruence. }
  exists ((if created then 1 else 0) + k), w'.
  split.
  { simpl. unfold mbind, M_bind. rewrite Hone, Hall. do 2 f_equal.
    destruct created; lia. }
  split; [done |].
  split; [by eapply same_surroundings_trans |].
  split; [rewrite length_cons; destruct created; lia |].
  split; [rewrite Hn, Hn1; destruct dry_run, created; lia |].
  split; [by etrans |].
  split.
  { intros ->. destruct (Hdry eq_refl) as [-> ->].
    rewrite (Hsame (or_intror eq_refl)). split; [done |].
    destruct created.
    - rewrite length_cons. lia.
    - by specialize (Hold eq_refl). }
  split.
  { intros Hd m [-> | Hm]%elem_of_cons; [| by apply Htaken].
    apply (name_taken_mono _ w1 w'); [done |].
    destruct created.
    - destruct (Hnew eq_refl Hd) as (_ & Ht & _).
      apply name_taken_spec. exists (next_id w), (scanned_row movie now).
      rewrite Ht, lookup_insert_eq. done.
    - rewrite (Hsame (or_introl eq_refl)). by apply Hold. }
  split.
  { intros j u Hj Hnone.
    destruct (tasks w1 !! j) as [u1|] eqn:Hj1.
    - destruct (Hrows1 j u1 Hj1 Hnone) as (-> & -> & -> & ->).
      assert (tasks w' !! next_id w = Some (scanned_row movie now)) as Hj'
        by by eapply lookup_weaken.
      rewrite Hj in Hj'. injection Hj' as ->.
      split; [lia |]. exists movie. split; [apply elem_of_cons; auto | done].
    - destruct (Hrows j u Hj Hj1) as (Hrange & m & Hm & Hu).
      split; [destruct dry_run, created; lia |].
      exists m. split; [apply elem_of_cons; auto | done]. }
  intros Hd Hall_taken.
  assert (created = false) as ->.
  { destruct created; [| done].
    destruct (Hnew eq_refl Hd) as (Hfree & _).
    rewrite Hall_taken in Hfree by (apply elem_of_cons; auto). done. }
  assert (w1 = w) as -> by (apply Hsame; auto).
  destruct (Hnothing Hd) as [-> ->].
  { intros m Hm. apply Hall_taken, elem_of_cons. auto. }
  done.
Qed.

Lemma ids_fresh_empty : ids_fresh empty_world.
Proof.
  intros i. unfold empty_world. simpl. rewrite lookup_empty.
  intros [? ?]. done.
Qed.

Lemma names_unique_empty : names_unique empty_world.
Proof.
  intros i j t u. unfold empty_world. simpl. by rewrite lookup_empty.
Qed.

(** X18.  In a dry run [create_tasks_for_movies] counts every movie it is
    given and writes nothing. *)
Theorem dry_run_counts_without_writing movies now w :
  BluRayScanner.create_tasks_for_movies true movies now w
  = (Ok (Z.of_nat (length movies)), w).
Proof.
  unfold BluRayScanner.create_tasks_for_movies.
  assert (∀ n, BluRayScanner.create_all true movies now n w
               = (Ok (n + Z.of_nat (length movies)), w)) as Hall.
  { induction movies as [|movie movies IH]; intros n; simpl.
    - unfold mret, M_ret. do 2 f_equal. lia.
    - unfold mbind, M_bind, BluRayScanner.create_one, try_except.
      simpl. rewrite IH. do 2 f_equal. lia. }
  by rewrite Hall.
Qed.

(** X19.  Outside a dry run [create_tasks_for_movies] returns the number of
    rows it added, which is the advance of the key counter.  It changes no
    existing row and nothing outside the task table; afterwards every movie
    of the list has a row; and every row it added is a [pending] task of
    one of the movies, with no attempts, created at the time of the scan,
    with the priority that the size of the movie decides: 1 above 50 GiB, 5
    above 25 GiB, 10 otherwise. *)
Theorem scan_creates_tasks_by_size movies now w :
  ids_fresh w →
  ∃ k w',
    BluRayScanner.create_tasks_for_movies false movies now w = (Ok k, w')
    ∧ 0 ≤ k ≤ Z.of_nat (length movies)
    ∧ next_id w' = next_id w + k
    ∧ tasks w ⊆ tasks w'
    ∧ same_surroundings w w'
    ∧ (∀ m, m ∈ movies →
         ∃ i t, tasks w' !! i = Some t ∧ movie_name t = info_name m)
    ∧ ∀ j u, tasks w' !! j = Some u → tasks w !! j = None →
        ∃ m, m ∈ movies
          ∧ movie_name u = info_name m ∧ source_path u = info_path m
          ∧ status u = PENDING ∧ attempts u = 0 ∧ created_at u = now
          ∧ priority u
            = (if decide (50 * 1024 ^ 3 < info_size_bytes m) then 1
               else if decide (25 * 1024 ^ 3 < info_size_bytes m) then 5
               else 10).
Proof.
  intros Hfresh.
  destruct (create_all_run false movies now 0 w Hfresh)
    as (k & w' & Hall & _ & Hsur & Hk & Hn & Hsub & _ & Htaken & Hrows & _).
  exists k, w'. unfold BluRayScanner.create_tasks_for_movies.
  split; [by rewrite Hall |]. split; [done |]. split; [done |].
  split; [done |]. split; [done |]. split.
  - intros m Hm. by apply name_taken_spec, Htaken.
  - intros j u Hj Hnone. destruct (Hrows j u Hj Hnone) as (_ & m & Hm & ->).
    exists m. split; [done |]. simpl. repeat split.
    unfold BluRayScanner.size_priority.
    repeat case_bool_decide; repeat case_decide; done.
Qed.

(** X19, on a scan that finds "Movie A", which has a task, and
    "Movie C". *)
Lemma scan_creates_tasks_by_size_witness :
  ∃ k w',
    BluRayScanner.create_tasks_for_movies false
      [mkMovieInfo "Movie A" "/raw/Movie A" 30000000000;
       mkMovieInfo "Movie C" "/raw/Movie C" 60000000000] 700
      movie_a_pending = (Ok k, w')
    ∧ 0 ≤ k ≤ Z.of_nat 2
    ∧ next_id w' = next_id movie_a_pending + k
    ∧ tasks movie_a_pending ⊆ tasks w'
    ∧ same_surroundings movie_a_pending w'
    ∧ (∀ m, m ∈ [mkMovieInfo "Movie A" "/raw/Movie A" 30000000000;
                 mkMovieInfo "Movie C" "/raw/Movie C" 60000000000] →
         ∃ i t, tasks w' !! i = Some t ∧ movie_name t = info_name m)
    ∧ ∀ j u, tasks w' !! j = Some u → tasks movie_a_pending !! j = None →
        ∃ m, m ∈ [mkMovieInfo "Movie A" "/raw/Movie A" 30000000000;
                  mkMovieInfo "Movie C" "/raw/Movie C" 60000000000]
          ∧ movie_name u = info_name m ∧ source_path u = info_path m
          ∧ status u = PENDING ∧ attempts u = 0 ∧ created_at u = 700
          ∧ priority u
            = (if decide (50 * 1024 ^ 3 < info_size_bytes m) then 1
               else if decide (25 * 1024 ^ 3 < info_size_bytes m) then 5
               else 10).
Proof.
  exact (scan_creates_tasks_by_size
           [mkMovieInfo "Movie A" "/raw/Movie A" 30000000000;
            mkMovieInfo "Movie C" "/raw/Movie C" 60000000000] 700
           movie_a_pending
           (run_ids_fresh (Create "Movie A" "/raw/Movie A" 5) 100 empty_world
              ids_fresh_empty)).
Defined.

(** X20.  A scan run again on the same folder creates nothing: whatever the
    first scan found is either skipped by the second or refused by the
    store, whose row of that name exists. *)
Theorem second_scan_creates_nothing raw_path max_attempts raw_dir now1 now2 w :
  ids_fresh w →
  let w1 := exec (BluRayScanner.full_scan raw_path false max_attempts raw_dir
                    now1) w in
  ∃ found,
    BluRayScanner.full_scan raw_path false max_attempts raw_dir now2 w1
    = (Ok (mkScanResults found 0), w1).
Proof.
  intros Hfresh.
  assert (∀ w0, ∃ l,
            BluRayScanner.scan_for_new_movies raw_path max_attempts raw_dir w0
            = (Ok l, w0)
            ∧ ∀ m, m ∈ l ↔
                ∃ item, item ∈ default [] raw_dir
                  ∧ entry_is_dir item = true
                  ∧ BluRayScanner.is_hidden (entry_name item) = false
                  ∧ entry_is_bluray item = true
                  ∧ eval (scanner.is_movie_already_processed max_attempts
                            (entry_name item)) w0 = Ok false
                  ∧ m = mkMovieInfo (entry_name item)
                          (raw_path +:+ "/" +:+ entry_name item)
                          (entry_size_bytes item)) as Hscan.
  { intros w0. destruct raw_dir as [items|]; simpl.
    - apply scan_items_run.
    - exists []. split; [done |]. intros m.
      split; [by intros ?%elem_of_nil |].
      intros (item & Hin & _). by apply elem_of_nil in Hin. }
  destruct (Hscan w) as (l1 & Hscan1 & Hl1).
  destruct (create_all_run false l1 now1 0 w Hfresh)
    as (k & w1 & Hall & Hfresh1 & Hsur & _ & _ & Hsub & _ & Htaken & _ & _).
  assert (exec (BluRayScanner.full_scan raw_path false max_attempts raw_dir
                  now1) w = w1) as ->.
  { unfold exec, BluRayScanner.full_scan,
      BluRayScanner.create_tasks_for_movies, mbind, M_bind.
    by rewrite Hscan1, Hall. }
  destruct (Hscan w1) as (l2 & Hscan2 & Hl2).
  destruct (create_all_run false l2 now2 0 w1 Hfresh1)
    as (k2 & w2 & Hall2 & _ & _ & _ & _ & _ & _ & _ & _ & Hnothing).
  destruct (Hnothing eq_refl) as [-> ->].
  { intros m (item & Hin & Hdir & Hhid & Hblu & Hnew & ->)%Hl2. simpl.
    unfold eval in Hnew. rewrite is_movie_already_processed_run in Hnew.
    simpl in Hnew.
    destruct (scanner.task_decides (entry_name item) max_attempts
                (merge_sort DatabaseManager.listing_order
                   (map_to_list (tasks w1)))) as [b|] eqn:Hrow1.
    { apply task_decides_Some in Hrow1 as ([j u] & Hr & Hname).
      rewrite merge_sort_Permutation in Hr.
      apply elem_of_map_to_list in Hr. apply name_taken_spec. eauto. }
    simpl in Hnew. injection Hnew as Hout1.
    assert (output_exists (entry_name item) w = false) as Hout.
    { unfold output_exists in *. destruct Hsur as (_ & _ & _ & <- & _).
      done. }
    destruct (scanner.task_decides (entry_name item) max_attempts
                (merge_sort DatabaseManager.listing_order
                   (map_to_list (tasks w)))) as [b|] eqn:Hrow.
    { apply task_decides_Some in Hrow as ([j u] & Hr & Hname).
      rewrite merge_sort_Permutation in Hr.
      apply elem_of_map_to_list in Hr.
      apply (name_taken_mono _ w w1); [done |].
      apply name_taken_spec. eauto. }
    apply (Htaken eq_refl
             (mkMovieInfo (entry_name item)
                (raw_path +:+ "/" +:+ entry_name item)
                (entry_size_bytes item))).
    apply Hl1. exists item. repeat split; try done.
    unfold eval. rewrite is_movie_already_processed_run. simpl.
    by rewrite Hrow, Hout. }
  exists (Z.of_nat (length l2)).
  unfold BluRayScanner.full_scan, BluRayScanner.create_tasks_for_movies,
    mbind, M_bind.
  by rewrite Hscan2, Hall2.
Qed.

(** X20, on a raw folder of two movies, a hidden folder and a file. *)
Lemma second_scan_creates_nothing_witness :
  let w1 := exec (BluRayScanner.full_scan "/movies/BluRayRAW" false 3
                    (Some [mkRawEntry "Movie A" true true 30000000000;
                           mkRawEntry ".trash" true true 5;
                           mkRawEntry "notes.txt" false false 10;
                           mkRawEntry "Movie C" true true 60000000000])
                    700) movie_a_pending in
  ∃ found,
    BluRayScanner.full_scan "/movies/BluRayRAW" false 3
      (Some [mkRawEntry "Movie A" true true 30000000000;
             mkRawEntry ".trash" true true 5;
             mkRawEntry "notes.txt" false false 10;
             mkRawEntry "Movie C" true true 60000000000])
      800 w1
    = (Ok (mkScanResults found 0), w1).
Proof.
  exact (second_scan_creates_nothing "/movies/BluRayRAW" 3
           (Some [mkRawEntry "Movie A" true true 30000000000;
                  mkRawEntry ".trash" true true 5;
                  mkRawEntry "notes.txt" false false 10;
                  mkRawEntry "Movie C" true true 60000000000])
           700 800 movie_a_pending
           (run_ids_fresh (Create "Movie A" "/raw/Movie A" 5) 100 empty_world
              ids_fresh_empty)).
Defined.

(** X17, on "Movie A" while its task is [pending]. *)
Lemma scanner_decides_by_the_movie_row_witness :
  exec (scanner.is_movie_already_processed 3 "Movie A") movie_a_pending
    = movie_a_pending
  ∧ (∀ i t, tasks movie_a_pending !! i = Some t → movie_name t = "Movie A" →
       eval (scanner.is_movie_already_processed 3 "Movie A") movie_a_pending
       = Ok (match status t with
             | COMPLETED | PROCESSING | SENT => true
             | FAILED => bool_decide (3 ≤ attempts t)
             | PENDING | RETRYING => output_exists "Movie A" movie_a_pending
             end))
  ∧ ((∀ i t, tasks movie_a_pending !! i = Some t →
        movie_name t ≠ "Movie A") →
     eval (scanner.is_movie_already_processed 3 "Movie A") movie_a_pending
     = Ok (output_exists "Movie A" movie_a_pending)).
Proof.
  exact (scanner_decides_by_the_movie_row 3 "Movie A" movie_a_pending
           (run_names_unique (Create "Movie A" "/raw/Movie A" 5) 100
              empty_world names_unique_empty)).
Defined.

(** ** The worker's reports *)

Lemma send_first_delivered g self update clock w resp w1 :
  nas_mock_mode self = false →
  (0 < nas_retry_attempts self)%nat →
  delivery self update 1 = Delivered →
  webhook.receive_status_update g update (clock 1%nat) w = (Ok resp, w1) →
  nas_client.send_status_update g self update clock w = (Ok true, w1).
Proof.
  intros Hmock Hn Hdel Hrecv. unfold nas_client.send_status_update.
  destruct (nas_retry_attempts self) as [|n]; [lia |]. simpl.
  rewrite Hmock, Hdel. unfold mbind, M_bind, nas_client.post.
  rewrite Hrecv. reflexivity.
Qed.

Lemma send_rejected g self update clock w attempts :
  nas_mock_mode self = false →
  (∀ now, ∃ status_code detail,
     status_code ≠ 200
     ∧ webhook.receive_status_update g update now w
       = (Raised (HTTPException status_code detail), w)) →
  nas_client.send_attempts g self update clock attempts w = (Ok false, w).
Proof.
  intros Hmock Hrej. induction attempts as [|attempt rest IH]; simpl; [done |].
  rewrite Hmock.
  destruct (Hrej (clock attempt)) as (status_code & detail & Hcode & Hrecv).
  destruct (delivery self update attempt); [exact IH | |].
  - unfold mbind, M_bind, nas_client.post. rewrite Hrecv.
    rewrite bool_decide_eq_false_2 by done.
    case_bool_decide; [done | exact IH].
  - unfold mbind, M_bind, nas_client.post. rewrite Hrecv. exact IH.
Qed.

(** X21.  A report that the NAS refuses never takes effect, however often the
    client retries and whatever the network does: for a task the NAS does
    not know, for a status other than the three it handles, or while the
    database is not available, [send_status_update] returns [False] and the
    NAS is as before. *)
Theorem refused_report_has_no_effect g self update clock w :
  nas_mock_mode self = false →
  db_available g = false
  ∨ tasks w !! u_task_id update = None
  ∨ u_status update ∉ [value PROCESSING; value COMPLETED; value FAILED] →
  nas_client.send_status_update g self update clock w = (Ok false, w).
Proof.
  intros Hmock Hrefused. apply send_rejected; [done |]. intros now.
  unfold webhook.receive_status_update. unfold_io.
  destruct (db_available g); simpl; [| eexists _, _; split; [| done]; done].
  destruct (tasks w !! u_task_id update) as [t|]; simpl;
    [| eexists _, _; split; [| done]; done].
  destruct Hrefused as [? | [? | Hst]]; [done | done |].
  rewrite !not_elem_of_cons in Hst. destruct Hst as (H1 & H2 & H3 & _).
  rewrite !bool_decide_eq_false_2 by done.
  eexists _, _; split; [| done]; done.
Qed.

(** X21, on a report for task 7, which the NAS does not know. *)
Lemma refused_report_has_no_effect_witness :
  nas_client.send_status_update nas
    (mkNASClient false 3 (λ _ _, Delivered)) (callback 7 FAILED) (λ _, 900)
    movie_a_processing
  = (Ok false, movie_a_processing).
Proof.
  apply (refused_report_has_no_effect nas
           (mkNASClient false 3 (λ _ _, Delivered)) (callback 7 FAILED)
           (λ _, 900) movie_a_processing).
  - reflexivity.
  - right. left. vm_compute. reflexivity.
Defined.

(** X22.  In mock mode the client reaches nobody: the NAS is as before, and
    the result is [True] as soon as there is an attempt to make. *)
Theorem mock_report_reaches_nobody g self update clock w :
  nas_mock_mode self = true →
  nas_client.send_status_update g self update clock w
  = (Ok (bool_decide (0 < nas_retry_attempts self)%nat), w).
Proof.
  intros Hmock. unfold nas_client.send_status_update.
  destruct (nas_retry_attempts self) as [|n]; simpl; [done |].
  by rewrite Hmock.
Qed.


(** What a [processing] callback leaves alone. *)
Lemma handle_processing_status_frame g task update now w :
  let w' := exec (webhook.handle_processing_status g task update now) w in
  temp_files w' = temp_files w ∧ processed_files w' = processed_files w
  ∧ raw_folders w' = raw_folders w ∧ relocations w' = relocations w.
Proof.
  unfold webhook.handle_processing_status, exec. unfold_io.
  rewrite update_row_run.
  destruct (bool_decide (processing_started_at task = None));
    rewrite ?update_row_run; simpl;
    destruct (u_progress_percent update) as [percent|];
    rewrite ?update_row_run; simpl;
    try destruct (telegram g && bool_decide (percent ∈ [25; 50; 75])); simpl;
    done.
Qed.


Lemma receive_failed_ack g update now w t :
  db_available g = true →
  u_status update = value FAILED →
  tasks w !! u_task_id update = Some t →
  eval (webhook.receive_status_update g update now) w
  = Ok (mkWebhookResponse true
          ("Status update processed for task "
           +:+ pretty (u_task_id update))).
Proof.
  intros Hdb Hst Hrow.
  unfold webhook.receive_status_update, webhook.handle_failed_status, eval.
  unfold_io.
  rewrite Hdb. simpl. rewrite Hrow, Hst. simpl.
  rewrite !update_row_run.
  destruct (truthy_num (u_processing_time update)); simpl;
    destruct (bool_decide (attempts t < 2)); rewrite ?update_row_run; simpl;
    destruct (telegram g); reflexivity.
Qed.



Lemma or_else_or_else e d : or_else (Some (or_else e d)) d = or_else e d.
Proof.
  unfold or_else. destruct e as [s|]; repeat case_bool_decide; congruence.
Qed.

(** What a [failed] callback leaves alone. *)
Lemma handle_failed_status_frame g task update now w :
  let w' := exec (webhook.handle_failed_status g task update now) w in
  temp_files w' = temp_files w ∧ processed_files w' = processed_files w
  ∧ raw_folders w' = raw_folders w ∧ relocations w' = relocations w.
Proof.
  unfold webhook.handle_failed_status, exec. unfold_io.
  rewrite !update_row_run.
  destruct (truthy_num (u_processing_time update)); simpl;
    destruct (bool_decide (attempts task < 2)); rewrite ?update_row_run; simpl;
    destruct (telegram g); done.
Qed.

(** X24.  A conversion that did not succeed, or that reports success
    without an output file or with an output of size zero, is reported to
    the NAS as [failed], with "Unknown error" when it names no error.  The
    NAS then treats it as any failure: the task goes back to [pending] with
    two more attempts while it had fewer than 2, and is [failed] with one
    more otherwise; no file is moved. *)
Theorem lifecycle_report_without_output_fails g self task_id folder success
    ptime temp_file size error clock1 clock2 w t :
  nas_mock_mode self = false →
  (0 < nas_retry_attempts self)%nat →
  (∀ update, delivery self update 1 = Delivered) →
  db_available g = true →
  tasks w !! task_id = Some t →
  success && truthy temp_file && truthy_num size = false →
  let w' := exec (nas_client.report_task_lifecycle g self task_id folder
                    success ptime temp_file size error clock1 clock2) w in
  eval (nas_client.report_task_lifecycle g self task_id folder success ptime
          temp_file size error clock1 clock2) w = Ok true
  ∧ (∃ t', tasks w' !! task_id = Some t'
       ∧ status t' = (if bool_decide (attempts t < 2) then PENDING else FAILED)
       ∧ attempts t'
         = attempts t + (if bool_decide (attempts t < 2) then 2 else 1)
       ∧ error_message t' = Some (or_else error "Unknown error"))
  ∧ temp_files w' = temp_files w
  ∧ processed_files w' = processed_files w
  ∧ raw_folders w' = raw_folders w
  ∧ relocations w' = relocations w.
Proof.
  intros Hmock Hn Hdel Hdb Hrow Hout. cbv zeta.
  set (update1 := mkStatusUpdateRequest task_id (value PROCESSING)
                    (Some folder) None None None None None).
  set (update2 := mkStatusUpdateRequest task_id (value FAILED)
                    (Some folder) None (Some ptime) None
                    (Some (or_else error "Unknown error")) None).
  set (w1 := exec (webhook.handle_processing_status g t update1
                     (clock1 1%nat)) w).
  destruct (processing_effect g t update1 (clock1 1%nat) w t Hrow)
    as (t1 & Hrow1 & Hst1 & Hatt1 & _).
  destruct (handle_processing_status_frame g t update1 (clock1 1%nat) w)
    as (Htemp1 & Hproc1 & Hraw1 & Hrel1).
  fold w1 in Hrow1, Htemp1, Hproc1, Hraw1, Hrel1.
  change (tasks w1 !! task_id = Some t1) in Hrow1.
  destruct (failed_callback_effect g update2 (clock2 1%nat) w1 t1 Hdb
              eq_refl Hrow1) as (t' & Hrow' & Hst' & Hatt' & Herr').
  change (error_message t'
          = Some (or_else (Some (or_else error "Unknown error"))
                    "Unknown error")) in Herr'.
  rewrite or_else_or_else in Herr'.
  rewrite (receive_failed_run g update2 (clock2 1%nat) w1 t1) in Hrow'
    by done.
  destruct (handle_failed_status_frame g t1 update2 (clock2 1%nat) w1)
    as (Htemp2 & Hproc2 & Hraw2 & Hrel2).
  assert (∃ resp,
            webhook.receive_status_update g update2 (clock2 1%nat) w1
            = (Ok resp,
               exec (webhook.handle_failed_status g t1 update2
                       (clock2 1%nat)) w1)) as [resp Hrecv].
  { pose proof (receive_failed_ack g update2 (clock2 1%nat) w1 t1 Hdb
                  eq_refl Hrow1) as Hack.
    pose proof (receive_failed_run g update2 (clock2 1%nat) w1 t1 Hdb
                  eq_refl Hrow1) as Hexec.
    unfold eval, exec in Hack, Hexec.
    destruct (webhook.receive_status_update g update2 (clock2 1%nat) w1)
      as [r w2]. simpl in *. subst. eauto. }
  set (w2 := exec (webhook.handle_failed_status g t1 update2
                     (clock2 1%nat)) w1) in *.
  assert (nas_client.report_task_lifecycle g self task_id folder success
            ptime temp_file size error clock1 clock2 w
          = (Ok true, w2)) as Hrun.
  { unfold nas_client.report_task_lifecycle, nas_client.send_task_started,
      nas_client.send_task_failed, mbind, M_bind.
    erewrite send_first_delivered; [| done | done | apply Hdel |
      by apply (receive_processing_run _ _ _ _ t)].
    rewrite Hout. fold update1 update2 w1.
    erewrite send_first_delivered; [| done | done | apply Hdel | apply Hrecv].
    reflexivity. }
  clearbody w2. unfold eval, exec. rewrite Hrun. simpl in *.
  split; [done |]. split.
  - exists t'. rewrite Hatt1 in Hst', Hatt'. done.
  - split; [congruence |]. split; [congruence |]. split; congruence.
Qed.

(** X24, on a conversion of "Movie A" that reports success with an
    output of size zero. *)
Lemma lifecycle_report_without_output_fails_witness :
  let self := mkNASClient false 3 (λ _ _, Delivered) in
  let w' := exec (nas_client.report_task_lifecycle nas self 1 "Movie A" true
                    5400 (Some "x.mkv") (Some 0) None (λ _, 200)
                    (λ _, 500)) movie_a_processing in
  eval (nas_client.report_task_lifecycle nas self 1 "Movie A" true 5400
          (Some "x.mkv") (Some 0) None (λ _, 200) (λ _, 500))
    movie_a_processing = Ok true
  ∧ (∃ t', tasks w' !! 1 = Some t'
       ∧ status t' = (if bool_decide (0 < 2) then PENDING else FAILED)
       ∧ attempts t' = 0 + (if bool_decide (0 < 2) then 2 else 1)
       ∧ error_message t' = Some (or_else None "Unknown error"))
  ∧ temp_files w' = temp_files movie_a_processing
  ∧ processed_files w' = processed_files movie_a_processing
  ∧ raw_folders w' = raw_folders movie_a_processing
  ∧ relocations w' = relocations movie_a_processing.
Proof.
  apply (lifecycle_report_without_output_fails nas
           (mkNASClient false 3 (λ _ _, Delivered)) 1 "Movie A" true 5400
           (Some "x.mkv") (Some 0) None (λ _, 200) (λ _, 500)
           movie_a_processing
           (mkTask "Movie A" "/raw/Movie A" PROCESSING 5 0 100 200 (Some 200)
              None None None None None None)).
  - reflexivity.
  - simpl. lia.
  - reflexivity.
  - reflexivity.
  - vm_compute. reflexivity.
  - reflexivity.
Defined.

(** X22, on a client in mock mode with no attempt to make. *)
Lemma mock_report_reaches_nobody_witness :
  nas_client.send_status_update nas (mkNASClient true 0 (λ _ _, Delivered))
    (callback 1 FAILED) (λ _, 900) movie_a_processing
  = (Ok false, movie_a_processing).
Proof.
  exact (mock_report_reaches_nobody nas
           (mkNASClient true 0 (λ _ _, Delivered)) (callback 1 FAILED)
           (λ _, 900) movie_a_processing eq_refl).
Defined.

(** ** The playlists *)

Lemma filter_none {A : Type} (P : A → Prop) `{!∀ x, Decision (P x)}
    (l : list A) :
  (∀ x, x ∈ l → ¬ P x) → filter P l = [].
Proof.
  induction l as [|x l IH]; intros Hl; [done |].
  rewrite filter_cons_False by (apply Hl, elem_of_cons; auto).
  apply IH. intros y Hy. apply Hl, elem_of_cons. auto.
Qed.

(** X25.  On a list that is sorted longest first, as [_find_playlists]
    leaves it, [_identify_main_playlist] returns the first playlist when it
    reaches the minimum duration, and then no playlist is longer; it returns
    [None] exactly when no playlist reaches the minimum. *)
Theorem main_playlist_is_the_longest min_main_duration playlists :
  BDMVAnalyzer.longest_first playlists →
  match BDMVAnalyzer.identify_main_playlist min_main_duration playlists with
  | Some p =>
      head playlists = Some p
      ∧ min_main_duration ≤ duration_seconds p
      ∧ ∀ q, q ∈ playlists → duration_seconds q ≤ duration_seconds p
  | None =>
      ∀ q, q ∈ playlists → duration_seconds q < min_main_duration
  end.
Proof.
  unfold BDMVAnalyzer.longest_first, BDMVAnalyzer.identify_main_playlist.
  intros Hsorted.
  assert (Transitive (λ p q : PlaylistInfo,
                        duration_seconds q ≤ duration_seconds p)) as Htrans
    by (intros p1 p2 p3; simpl; lia).
  apply (Sorted_StronglySorted _) in Hsorted.
  destruct playlists as [|p rest]; [by intros q ?%elem_of_nil |].
  apply StronglySorted_inv in Hsorted as [_ Hrest].
  rewrite Forall_forall in Hrest.
  destruct (decide (min_main_duration ≤ duration_seconds p)) as [Hlong|Hshort].
  - rewrite filter_cons_True by done. simpl.
    split; [done |]. split; [done |].
    intros q [-> | Hq]%elem_of_cons; [lia | by apply Hrest].
  - rewrite filter_none; simpl.
    + intros q [-> | Hq]%elem_of_cons; [lia |]. apply Hrest in Hq. lia.
    + intros q [-> | Hq]%elem_of_cons; [lia |]. apply Hrest in Hq. lia.
Qed.

(** X25, on three playlists and a minimum of one hour. *)
Lemma main_playlist_is_the_longest_witness :
  head [mkPlaylistInfo "00800" 7200; mkPlaylistInfo "00801" 5400;
        mkPlaylistInfo "00002" 300]
    = Some (mkPlaylistInfo "00800" 7200)
  ∧ 3600 ≤ 7200
  ∧ ∀ q, q ∈ [mkPlaylistInfo "00800" 7200; mkPlaylistInfo "00801" 5400;
              mkPlaylistInfo "00002" 300] →
      duration_seconds q ≤ 7200.
Proof.
  apply (main_playlist_is_the_longest 3600
           [mkPlaylistInfo "00800" 7200; mkPlaylistInfo "00801" 5400;
            mkPlaylistInfo "00002" 300]).
  repeat constructor; simpl; lia.
Defined.

(** X26.  The three fields of [duration_formatted] add up to the duration, and
    the minutes and the seconds stay below 60. *)
Theorem duration_fields_recompose p :
  let '(hours, minutes, seconds) := BDMVAnalyzer.duration_fields p in
  hours * 3600 + minutes * 60 + seconds = duration_seconds p
  ∧ 0 ≤ minutes < 60 ∧ 0 ≤ seconds < 60
  ∧ (0 ≤ hours ↔ 0 ≤ duration_seconds p).
Proof.
  unfold BDMVAnalyzer.duration_fields. generalize (duration_seconds p).
  intros d.
  assert (d `mod` 60 = (d `mod` 3600) `mod` 60) as Hsec.
  { rewrite (Z.mod_eq d 3600) by lia.
    replace (d - 3600 * (d `div` 3600))
      with (d + (- 60 * (d `div` 3600)) * 60) by lia.
    by rewrite Z_mod_plus_full. }
  pose proof (Z.div_mod d 3600 ltac:(lia)).
  pose proof (Z.div_mod (d `mod` 3600) 60 ltac:(lia)).
  pose proof (Z.mod_pos_bound d 3600 ltac:(lia)).
  pose proof (Z.mod_pos_bound d 60 ltac:(lia)).
  pose proof (Z.div_pos (d `mod` 3600) 60 ltac:(lia) ltac:(lia)).
  pose proof (Z.div_lt_upper_bound (d `mod` 3600) 60 60 ltac:(lia) ltac:(lia)).
  split; [lia |]. split; [lia |]. split; [lia |].
  split; [intros; lia |]. intros. apply Z.div_pos; lia.
Qed.
